(** * Photo-Dir-Formatter: a shallow embedding of [organize_photos.py] and
    [heic_to_jpg.py], and the properties of their move / convert / verify
    protocol.

    Conventions of the embedding.
    - File names and paths are [string]s of bytes.  [str.lower()] is modelled
      on the ASCII letters, which is exact for every comparison the scripts
      make (all the literals compared against are ASCII).
    - [organize_photos.py] works on one directory at a time and only touches
      [current_path/<name>] and [current_path/<sub>/<name>]; the directory
      tree is therefore an inductive [node], a directory being the list of
      its entries in the order [os.scandir] yields them.  Names are compared
      exactly (a case-sensitive file system).
    - [heic_to_jpg.py] works on one path string; its file system is a finite
      map from path strings to nodes.
    - Permissions are those of an unprivileged user.  A directory carries
      whether it may be listed and whether entries may be created in it or
      removed from it; a directory without search permission is a node of its
      own, [Locked], in which [os.path.exists] and [os.path.isdir] find
      nothing.  [os.scandir] tells files from directories from the listing
      alone.
    - Python exceptions are a [result]; [print] appends an [event] to a log.
    - The image codec (Pillow with pillow-heif) is external: it is a set of
      section variables. *)

From Stdlib Require Import String Ascii List ZArith Bool Lia.
From stdpp Require Import gmap strings.
Import ListNotations.

Local Open Scope string_scope.
Local Open Scope list_scope.

(** ** Python string operations *)

Module PyStr.

(** [c.lower()] on one ASCII character. *)
Definition lower_ascii (c : ascii) : ascii :=
  let n := nat_of_ascii c in
  if (65 <=? n)%nat && (n <=? 90)%nat then ascii_of_nat (n + 32) else c.

(** [s.lower()]. *)
Fixpoint lower (s : string) : string :=
  match s with
  | EmptyString => EmptyString
  | String c s' => String (lower_ascii c) (lower s')
  end.

(** [s.endswith(suf)] for one suffix: some tail of [s] is [suf]. *)
Fixpoint endswith (s suf : string) : bool :=
  String.eqb s suf ||
  match s with
  | EmptyString => false
  | String _ s' => endswith s' suf
  end.

(** [s.endswith(exts)] for a tuple of suffixes. *)
Definition endswith_any (s : string) (exts : list string) : bool :=
  existsb (endswith s) exts.

(** [s.rfind(c)]: index of the last occurrence of [c], or [-1]. *)
Fixpoint rfind_from (c : ascii) (s : string) (i : Z) (acc : Z) : Z :=
  match s with
  | EmptyString => acc
  | String d s' => rfind_from c s' (i + 1) (if Ascii.eqb d c then i else acc)
  end.

Definition rfind (c : ascii) (s : string) : Z := rfind_from c s 0 (-1).

(** [all(ch == c for ch in s)]. *)
Fixpoint all_chars (c : ascii) (s : string) : bool :=
  match s with
  | EmptyString => true
  | String d s' => Ascii.eqb d c && all_chars c s'
  end.

(** [s[i:j]] for [0 <= i]. *)
Definition slice (s : string) (i j : Z) : string :=
  String.substring (Z.to_nat i) (Z.to_nat (j - i)) s.

(** [os.path.splitext(p)] ([genericpath._splitext] with [sep = '/'], no
    [altsep], [extsep = '.']): the extension starts at the last dot of the
    last component, unless that component has nothing but dots before it. *)
Definition splitext (p : string) : string * string :=
  let sepIndex := rfind "/"%char p in
  let dotIndex := rfind "."%char p in
  let len := Z.of_nat (String.length p) in
  if (sepIndex <? dotIndex)%Z then
    if all_chars "."%char (slice p (sepIndex + 1) dotIndex)
    then (p, EmptyString)
    else (slice p 0 dotIndex, slice p dotIndex len)
  else (p, EmptyString).

End PyStr.

Import PyStr.

(** ** The image codec (external collaborator) *)

Definition bytes := list Byte.byte.

(** What the scripts use of Pillow: [Image.open], [img.mode],
    [img.convert("RGB")] and [img.save(path, "JPEG", quality=q)].  [None] is
    a raised exception. *)
Class ImageCodec := {
  image : Type;
  Image_open : bytes -> option image;
  image_mode : image -> string;
  image_convert_RGB : image -> image;
  image_save_JPEG : image -> Z -> option bytes
}.

(** Python exceptions: the handlers of the scripts tell [PermissionError]
    from every other [Exception]. *)
Inductive exn := PermissionError | OtherError.

Inductive result (A : Type) :=
| Ok (a : A)
| Raise (e : exn).
Arguments Ok {A} a.
Arguments Raise {A} e.

(** The three lines that open, normalise and encode an image; the bytes of
    the JPEG to write, or the exception. *)
Definition encode_jpeg `{ImageCodec} (data : bytes) (quality : Z) : option bytes :=
  match Image_open data with
  | None => None
  | Some img =>
      let img :=
        if existsb (String.eqb (image_mode img)) ["RGBA"; "P"]
        then image_convert_RGB img else img in
      image_save_JPEG img quality
  end.

(** ** organize_photos.py *)

Module Organize.

(** A node of the directory tree.  [Dir] is a directory that can be searched
    (its x bit is set): it carries whether it may be listed ([readable]) and
    whether entries may be created in it or removed from it ([writable]).
    [Locked] is a directory without search permission: it may still be
    listed when [readable], but nothing in it can be reached, created or
    removed. *)
#[warnings="-register-all"] Inductive node :=
| File (data : bytes)
| Dir (readable writable : bool) (entries : list (string * node))
| Locked (readable : bool) (entries : list (string * node)).

Definition entries := list (string * node).

(** A normalised path, as its components ([os.path.normpath] is the
    identity on these). *)
Definition path := list string.

(** [os.path.basename] of a normalised path. *)
Definition basename (p : path) : string := List.last p "".

Definition is_file (n : node) : bool :=
  match n with File _ => true | Dir _ _ _ | Locked _ _ => false end.

Definition is_dir (n : node) : bool := negb (is_file n).

(** One [print] of the script. *)
Inductive event :=
| Scanning (p : path)
| Info (total heic mov mp4 : nat)
| Convert (name base : string)
| ErrorConvert (name : string)
| SkipConv (base : string)
| SkipMove (filename folder : string)
| ErrorMove (filename : string)
| Moved (name folder : string)
| Verify
| ResultSuccess (total : nat)
| ResultMismatch (exp_heic act_heic exp_mov act_mov exp_mp4 act_mp4 : nat)
| ErrorPermission (p : path)
| ErrorUnexpected (p : path).

Definition log := list event.

(** *** The entries of the current directory *)

(** The node at [current_path/name]. *)
Fixpoint lookup_entry (name : string) (es : entries) : option node :=
  match es with
  | [] => None
  | (n, x) :: es' => if String.eqb n name then Some x else lookup_entry name es'
  end.

(** [os.path.exists(current_path/name)]. *)
Definition path_exists (name : string) (es : entries) : bool :=
  match lookup_entry name es with Some _ => true | None => false end.

(** [os.path.exists(current_path/folder/name)]: [False] too when the folder
    cannot be searched, whatever it holds. *)
Definition path_exists_in (folder name : string) (es : entries) : bool :=
  match lookup_entry folder es with
  | Some (Dir _ _ sub) => path_exists name sub
  | _ => false
  end.

(** The directory without the entry [name]. *)
Definition remove_entry (name : string) (es : entries) : entries :=
  List.filter (fun e => negb (String.eqb (fst e) name)) es.

(** The directory with the node at [name] replaced. *)
Fixpoint update_entry (name : string) (x : node) (es : entries) : entries :=
  match es with
  | [] => []
  | (n, y) :: es' =>
      if String.eqb n name then (n, x) :: es' else (n, y) :: update_entry name x es'
  end.

(** [os.makedirs(current_path/folder)], called when nothing is there. *)
Definition makedirs (writable : bool) (folder : string) (es : entries) : result entries :=
  if writable then Ok (es ++ [(folder, Dir true true [])]) else Raise PermissionError.

(** [shutil.move(current_path/src, current_path/folder/src)], called when
    [os.path.exists] found the destination path free: the outcome and the
    entries afterwards.  [os.rename] needs the source, a destination
    directory that can be searched, and both directories writable.  When it
    fails, [shutil.move] falls back to [copy2] and [os.unlink] for a regular
    file: with a writable folder in a directory that is not, the copy is
    written, the unlink raises, and the file is in both places.  (The source
    is a regular file whenever [process_directory] asks; the fallback for a
    directory source, [copytree] and [rmtree], is left as a failure without
    effect.) *)
Definition shutil_move (writable : bool) (src folder : string) (es : entries)
  : result unit * entries :=
  match lookup_entry src es with
  | None => (Raise OtherError, es)
  | Some x =>
      match lookup_entry folder es with
      | Some (Dir r w sub) =>
          if writable && w
          then (Ok tt,
                update_entry folder (Dir r w (sub ++ [(src, x)])) (remove_entry src es))
          else
            match x with
            | File d =>
                if w
                then (Raise PermissionError,
                      update_entry folder (Dir r w (sub ++ [(src, File d)])) es)
                else (Raise PermissionError, es)
            | _ => (Raise PermissionError, es)
            end
      | Some (Locked _ _) => (Raise PermissionError, es)
      | _ => (Raise OtherError, es)
      end
  end.

(** *** safe_move *)

(** [safe_move(src, dest_folder)] on the entries of the current directory:
    the outcome (the returned boolean, or the exception that leaves the
    function), the entries afterwards and what was printed. *)
Definition safe_move (writable : bool) (src dest_folder : string) (es : entries)
  : result bool * entries * log :=
  match (if path_exists dest_folder es then Ok es else makedirs writable dest_folder es) with
  | Raise e => (Raise e, es, [])
  | Ok es1 =>
      let filename := src in
      if path_exists_in dest_folder filename es1
      then (Ok false, es1, [SkipMove filename dest_folder])
      else
        match shutil_move writable src dest_folder es1 with
        | (Ok _, es2) => (Ok true, es2, [])
        | (Raise _, es2) => (Ok false, es2, [ErrorMove filename])
        end
  end.

(** *** count_files_in_folder *)

Definition matches (exts : list string) (name : string) : bool :=
  endswith_any (lower name) exts.

(** [count_files_in_folder(current_path/folder, extensions)]:
    [os.listdir] raises on a file and on an unreadable directory; it needs
    no search permission on the folder. *)
Definition count_files_in_folder (folder : string) (exts : list string) (es : entries)
  : result nat :=
  match lookup_entry folder es with
  | None => Ok 0%nat
  | Some (Dir r _ sub) | Some (Locked r sub) =>
      if r then Ok (length (List.filter (fun e => matches exts (fst e)) sub))
      else Raise PermissionError
  | Some (File _) => Raise OtherError
  end.

(** *** process_directory *)

Definition heic_exts : list string := [".heic"; ".heif"].
Definition mov_exts : list string := [".mov"].
Definition mp4_exts : list string := [".mp4"; ".mpg"; ".mpeg"].

Definition reserved_names : list string := ["heic"; "mov"; "mp4"].

Definition is_reserved (folder_name : string) : bool :=
  existsb (String.eqb folder_name) reserved_names.

Record counts := { c_heic : nat; c_mov : nat; c_mp4 : nat }.

Definition total (c : counts) : nat := (c_heic c + c_mov c + c_mp4 c)%nat.

(** The counting loop over the snapshot: [target_counts] and
    [files_to_process]. *)
Fixpoint classify (snapshot : entries) : counts * list string :=
  match snapshot with
  | [] => ({| c_heic := 0; c_mov := 0; c_mp4 := 0 |}, [])
  | (name, x) :: rest =>
      let '(c, todo) := classify rest in
      if is_file x then
        if matches heic_exts name
        then ({| c_heic := S (c_heic c); c_mov := c_mov c; c_mp4 := c_mp4 c |}, name :: todo)
        else if matches mov_exts name
        then ({| c_heic := c_heic c; c_mov := S (c_mov c); c_mp4 := c_mp4 c |}, name :: todo)
        else if matches mp4_exts name
        then ({| c_heic := c_heic c; c_mov := c_mov c; c_mp4 := S (c_mp4 c) |}, name :: todo)
        else (c, todo)
      else (c, todo)
  end.

(** The two handlers at the end of [process_directory]. *)
Definition handler (current_path : path) (e : exn) : event :=
  match e with
  | PermissionError => ErrorPermission current_path
  | OtherError => ErrorUnexpected current_path
  end.

(** The verification step: the three recounts, then the comparison. *)
Definition verify (current_path : path) (c : counts) (es : entries) : log :=
  match count_files_in_folder "heic" heic_exts es with
  | Raise e => [Verify; handler current_path e]
  | Ok actual_heic =>
  match count_files_in_folder "mov" mov_exts es with
  | Raise e => [Verify; handler current_path e]
  | Ok actual_mov =>
  match count_files_in_folder "mp4" mp4_exts es with
  | Raise e => [Verify; handler current_path e]
  | Ok actual_mp4 =>
      if (actual_heic =? c_heic c)%nat && (actual_mov =? c_mov c)%nat
         && (actual_mp4 =? c_mp4 c)%nat
      then [Verify; ResultSuccess (total c)]
      else [Verify; ResultMismatch (c_heic c) actual_heic (c_mov c) actual_mov
                      (c_mp4 c) actual_mp4]
  end end end.

(** The body of the loop in a directory that cannot be searched: every
    [os.path.exists] is [False], so a HEIC file goes to [Image.open], which
    raises, and a MOV or MP4 file to [os.makedirs], whose [PermissionError]
    leaves the loop. *)
Definition locked_entry (name : string) : result unit * log :=
  let file_lower := lower name in
  let base_name := fst (splitext name) in
  if endswith_any file_lower heic_exts
  then (Ok tt, [Convert name base_name; ErrorConvert name])
  else if endswith_any file_lower mov_exts then (Raise PermissionError, [])
  else if endswith_any file_lower mp4_exts then (Raise PermissionError, [])
  else (Ok tt, []).

Fixpoint locked_files (todo : list string) : result unit * log :=
  match todo with
  | [] => (Ok tt, [])
  | name :: rest =>
      match locked_entry name with
      | (Raise e, l1) => (Raise e, l1)
      | (Ok _, l1) => let '(r, l2) := locked_files rest in (r, l1 ++ l2)
      end
  end.

(** [process_directory] on the files of a directory that can be listed but
    not searched: count, loop, and the verification, whose three
    [os.path.exists] are [False] and recounts zero.  The directory is left
    as it is. *)
Definition organize_locked (current_path : path) (snapshot : entries) : log :=
  let '(target_counts, files_to_process) := classify snapshot in
  if (total target_counts =? 0)%nat then []
  else
    let info := Info (total target_counts) (c_heic target_counts)
                  (c_mov target_counts) (c_mp4 target_counts) in
    match locked_files files_to_process with
    | (Raise e, l) => info :: l ++ [handler current_path e]
    | (Ok _, l) => info :: l ++ verify current_path target_counts []
    end.

Section WithCodec.
Context `{ImageCodec}.

(** The conversion inside the [try]: read the source, encode, write the
    JPEG next to it. *)
Definition convert (writable : bool) (quality : Z) (src jpg : string) (es : entries)
  : result entries :=
  match lookup_entry src es with
  | Some (File data) =>
      match encode_jpeg data quality with
      | Some j => if writable then Ok (es ++ [(jpg, File j)]) else Raise PermissionError
      | None => Raise OtherError
      end
  | _ => Raise OtherError
  end.

(** A [safe_move] followed by the [Moved] line when it returns [True]. *)
Definition move_to (writable : bool) (name folder : string) (es : entries)
  : result unit * entries * log :=
  match safe_move writable name folder es with
  | (Raise e, es', l) => (Raise e, es', l)
  | (Ok true, es', l) => (Ok tt, es', l ++ [Moved name folder])
  | (Ok false, es', l) => (Ok tt, es', l)
  end.

(** The body of the loop over [files_to_process]; [Ok tt] goes on with the
    next file (also after [continue]), [Raise] leaves the loop. *)
Definition process_entry (writable : bool) (quality : Z) (name : string) (es : entries)
  : result unit * entries * log :=
  let file_lower := lower name in
  let base_name := fst (splitext name) in
  if endswith_any file_lower heic_exts then
    let jpg := (base_name ++ ".jpg")%string in
    if negb (path_exists jpg es) then
      match convert writable quality name jpg es with
      | Raise _ => (Ok tt, es, [Convert name base_name; ErrorConvert name])
      | Ok es1 =>
          let '(r, es2, l) := move_to writable name "heic" es1 in
          (r, es2, Convert name base_name :: l)
      end
    else
      let '(r, es2, l) := move_to writable name "heic" es in
      (r, es2, SkipConv base_name :: l)
  else if endswith_any file_lower mov_exts then move_to writable name "mov" es
  else if endswith_any file_lower mp4_exts then move_to writable name "mp4" es
  else (Ok tt, es, []).

Fixpoint process_files (writable : bool) (quality : Z) (todo : list string) (es : entries)
  : result unit * entries * log :=
  match todo with
  | [] => (Ok tt, es, [])
  | name :: rest =>
      match process_entry writable quality name es with
      | (Raise e, es1, l1) => (Raise e, es1, l1)
      | (Ok _, es1, l1) =>
          let '(r, es2, l2) := process_files writable quality rest es1 in
          (r, es2, l1 ++ l2)
      end
  end.

(** [process_directory] after the recursion into the subdirectories:
    count on the snapshot, process the files, verify. *)
Definition organize_files (current_path : path) (writable : bool) (quality : Z)
    (snapshot es : entries) : entries * log :=
  let '(target_counts, files_to_process) := classify snapshot in
  if (total target_counts =? 0)%nat then (es, [])
  else
    let info := Info (total target_counts) (c_heic target_counts)
                  (c_mov target_counts) (c_mp4 target_counts) in
    match process_files writable quality files_to_process es with
    | (Raise e, es', l) => (es', info :: l ++ [handler current_path e])
    | (Ok _, es', l) => (es', info :: l ++ verify current_path target_counts es')
    end.

(** The loop [for entry in entries: if entry.is_dir(): ...], for a visit
    [visit name child] of a subdirectory, in a directory that can be
    searched (in one that cannot, [os.path.isdir] is [False] for every
    child and each call returns at once). *)
Definition recurse (visit : string -> node -> node * log) : entries -> entries * log :=
  fix go (es : entries) : entries * log :=
    match es with
    | [] => ([], [])
    | (name, x) :: rest =>
        let '(x', l1) := if is_dir x then visit name x else (x, []) in
        let '(rest', l2) := go rest in
        ((name, x') :: rest', l1 ++ l2)
    end.

(** [process_directory(current_path, quality)], on the node at
    [current_path]. *)
Fixpoint process_directory (current_path : path) (quality : Z) (n : node) : node * log :=
  match n with
  | File _ => (n, [])
  | Dir readable writable snapshot =>
      if is_reserved (lower (basename current_path)) then (n, [])
      else if negb readable
      then (n, [Scanning current_path; ErrorPermission current_path])
      else
        let '(es1, l1) :=
          recurse (fun name x => process_directory (current_path ++ [name]) quality x)
                  snapshot in
        let '(es2, l2) := organize_files current_path writable quality snapshot es1 in
        (Dir readable writable es2, Scanning current_path :: l1 ++ l2)
  | Locked readable snapshot =>
      if is_reserved (lower (basename current_path)) then (n, [])
      else if negb readable
      then (n, [Scanning current_path; ErrorPermission current_path])
      else (n, Scanning current_path :: organize_locked current_path snapshot)
  end.

(** The subdirectory loop of a visit of [current_path]. *)
Definition children (current_path : path) (quality : Z) : entries -> entries * log :=
  recurse (fun name x => process_directory (current_path ++ [name]) quality x).

End WithCodec.

End Organize.

(** ** heic_to_jpg.py *)

Module HeicToJpg.

(** What a path names. *)
Inductive entry :=
| RegularFile (data : bytes)
| Directory.

(** One [print] of the script. *)
Inductive event :=
| NotFound (input_path : string)
| NotHeic (input_path : string)
| AlreadyExists (output_path : string)
| Converting (input_path output_path : string) (quality : Z)
| Successful
| ConversionError.

(** [convert_heic_to_jpg(input_path, quality)]: the file system afterwards
    and what was printed.  [os.path.exists] is a lookup; the only write is
    [image.save(output_path, ...)]. *)
Definition convert_heic_to_jpg `{ImageCodec}
    (fs : gmap string entry) (input_path : string) (quality : Z)
  : gmap string entry * list event :=
  match fs !! input_path with
  | None => (fs, [NotFound input_path])
  | Some x =>
      if negb (endswith_any (lower input_path) [".heic"; ".heif"])
      then (fs, [NotHeic input_path])
      else
        let base_name := fst (splitext input_path) in
        let output_path := (base_name ++ ".jpg")%string in
        match fs !! output_path with
        | Some _ => (fs, [AlreadyExists output_path])
        | None =>
            let encoded :=
              match x with
              | RegularFile data => encode_jpeg data quality
              | Directory => None
              end in
            match encoded with
            | Some j =>
                (<[output_path := RegularFile j]> fs,
                 [Converting input_path output_path quality; Successful])
            | None => (fs, [Converting input_path output_path quality; ConversionError])
            end
        end
  end.

End HeicToJpg.

(** Two codecs to run the scripts on: one that refuses every input, one
    that decodes everything and writes the bytes back. *)
Definition failing_codec : ImageCodec :=
  {| image := unit;
     Image_open := fun _ => None;
     image_mode := fun _ => "RGB";
     image_convert_RGB := fun i => i;
     image_save_JPEG := fun _ _ => None |}.

Definition copying_codec : ImageCodec :=
  {| image := bytes;
     Image_open := fun d => Some d;
     image_mode := fun _ => "RGB";
     image_convert_RGB := fun i => i;
     image_save_JPEG := fun i _ => Some i |}.

(** ** The two command lines *)

(** What the [__main__] blocks use of Python and are not part of the
    scripts: [int(s)] ([None] is [ValueError]) and [os.path.normpath]. *)
Class PyRuntime := {
  py_int : string -> option Z;
  normpath : string -> list string
}.

Module OrganizeMain.

(** One [print] of the [__main__] block; [Core] is a line of
    [process_directory]. *)
Inductive line :=
| MissingPath
| Usage
| QualityOutOfRange (val : Z)
| InvalidQuality
| PathNotFound (start_dir : string)
| Starting (start_dir : string)
| TargetQuality (quality : Z)
| Rule
| Core (e : Organize.event)
| Complete.

(** The block that reads [sys.argv[2]]: the quality to use and the warning
    printed. *)
Definition jpg_quality `{PyRuntime} (argv : list string) : Z * list line :=
  match argv with
  | _ :: _ :: arg :: _ =>
      match py_int arg with
      | Some val =>
          if (1 <=? val)%Z && (val <=? 100)%Z then (val, [])
          else (95%Z, [QualityOutOfRange val])
      | None => (95%Z, [InvalidQuality])
      end
  | _ => (95%Z, [])
  end.

(** The [__main__] block of [organize_photos.py], on the tree [disk] has at
    each path: the exit status, the tree at [start_dir] afterwards when the
    walk was started, and what was printed. *)
Definition main `{ImageCodec} `{PyRuntime}
    (argv : list string) (disk : string -> option Organize.node)
  : Z * option Organize.node * list line :=
  match argv with
  | _ :: start_dir :: _ =>
      let '(quality, warning) := jpg_quality argv in
      match disk start_dir with
      | None => (1%Z, None, warning ++ [PathNotFound start_dir])
      | Some n =>
          let '(n', l) := Organize.process_directory (normpath start_dir) quality n in
          (0%Z, Some n',
           warning ++ [Starting start_dir; TargetQuality quality; Rule]
             ++ List.map Core l ++ [Rule; Complete])
      end
  | _ => (1%Z, None, [MissingPath; Usage])
  end.

End OrganizeMain.

Module HeicMain.

(** One [print] of the [__main__] block; [Core] is a line of
    [convert_heic_to_jpg]. *)
Inductive line :=
| Usage
| UsageExample
| QualityOutOfRange
| InvalidQuality
| Core (e : HeicToJpg.event).

(** The block that reads [sys.argv[2]]. *)
Definition jpg_quality `{PyRuntime} (argv : list string) : Z * list line :=
  match argv with
  | _ :: _ :: arg :: _ =>
      match py_int arg with
      | Some val =>
          if negb ((1 <=? val)%Z && (val <=? 100)%Z) then (95%Z, [QualityOutOfRange])
          else (val, [])
      | None => (95%Z, [InvalidQuality])
      end
  | _ => (95%Z, [])
  end.

(** The [__main__] block of [heic_to_jpg.py]. *)
Definition main `{ImageCodec} `{PyRuntime}
    (argv : list string) (fs : gmap string HeicToJpg.entry)
  : gmap string HeicToJpg.entry * list line :=
  match argv with
  | _ :: file_to_convert :: _ =>
      let '(quality, warning) := jpg_quality argv in
      let '(fs', l) := HeicToJpg.convert_heic_to_jpg fs file_to_convert quality in
      (fs', warning ++ List.map Core l)
  | _ => (fs, [Usage; UsageExample])
  end.

End HeicMain.

(** ** Vocabulary of the properties *)

Import Organize.

(** The file is one of those [process_directory] relocates. *)
Definition is_target (name : string) : bool :=
  matches heic_exts name || matches mov_exts name || matches mp4_exts name.

(** The subfolder a target file goes to. *)
Definition folder_of (name : string) : string :=
  if matches heic_exts name then "heic"
  else if matches mov_exts name then "mov" else "mp4".

(** The lines that report a file or a directory that was not handled. *)
Definition is_failure (e : Organize.event) : bool :=
  match e with
  | ErrorConvert _ | SkipMove _ _ | ErrorMove _
  | ErrorPermission _ | ErrorUnexpected _ => true
  | _ => false
  end.

(** A run in which every conversion and every move went through. *)
Definition failure_free (l : log) : bool := forallb (fun e => negb (is_failure e)) l.

(** A run that only walked: nothing converted, moved or verified. *)
Definition is_scanning (e : Organize.event) : bool :=
  match e with Scanning _ => true | _ => false end.

Definition quiet (l : log) : bool := forallb is_scanning l.

(** The JPEG written next to a HEIC file. *)
Definition jpg_of (name : string) : string := (fst (splitext name) ++ ".jpg")%string.

(** The extensions recounted in a subfolder. *)
Definition category_exts (folder : string) : list string :=
  if String.eqb folder "heic" then heic_exts
  else if String.eqb folder "mov" then mov_exts else mp4_exts.

(** How many of the files to process go to [folder]. *)
Definition bound_for (folder : string) (todo : list string) : nat :=
  length (List.filter (fun name => is_target name && String.eqb (folder_of name) folder) todo).

(** The entries once the destination folder is there. *)
Definition with_folder (folder : string) (es es1 : entries) : Prop :=
  es1 = es \/ (lookup_entry folder es = None /\ es1 = es ++ [(folder, Dir true true [])]).

(** An entry a second walk has nothing to do with: a file, or a folder with
    a reserved name. *)
Definition harmless (e : string * node) : Prop :=
  is_file (snd e) = true \/ is_reserved (fst e) = true.

(** Every entry of [es'] was in [es] or is harmless. *)
Definition evolves (es es' : entries) : Prop :=
  forall e, In e es' -> In e es \/ harmless e.

(** Every target file of the directory is still to be processed. *)
Definition targets_within (todo : list string) (es : entries) : Prop :=
  forall x d, In (x, File d) es -> is_target x = true -> In x todo.

(** An extension list no member of which can end a name in [.jpg]. *)
Definition jpg_free (exts : list string) : bool :=
  forallb (fun e => (4 <=? String.length e)%nat && negb (endswith e ".jpg")) exts.

(** How many files of the directory have one of the extensions. *)
Definition files_matching (exts : list string) (es : entries) : nat :=
  length (List.filter (fun e => is_file (snd e) && matches exts (fst e)) es).

(** Two extension lists no name can match both of. *)
Definition exts_disjoint (A B : list string) : bool :=
  forallb (fun a => forallb (fun b => negb (endswith a b) && negb (endswith b a)) B) A.

(** The verdict line of a count mismatch. *)
Definition is_mismatch (e : Organize.event) : bool :=
  match e with ResultMismatch _ _ _ _ _ _ => true | _ => false end.

Definition no_mismatch (l : log) : bool := forallb (fun e => negb (is_mismatch e)) l.

(** The lines the loop over the files can print. *)
Definition is_file_line (e : Organize.event) : bool :=
  match e with
  | Convert _ _ | ErrorConvert _ | SkipConv _ | SkipMove _ _ | ErrorMove _ | Moved _ _ => true
  | _ => false
  end.

(** A second visit of the entry changes nothing and only prints scanning
    lines. *)
Definition stable `{ImageCodec} (p : path) (q : Z) (e : string * node) : Prop :=
  is_dir (snd e) = true ->
  exists l, process_directory (p ++ [fst e]) q (snd e) = (snd e, l) /\ quiet l = true.

(** No file anywhere in the tree is one [process_directory] relocates. *)
Fixpoint has_no_target (n : node) : bool :=
  match n with
  | File _ => true
  | Dir _ _ es | Locked _ es =>
      forallb (fun e : string * node =>
                 let '(name, x) := e in
                 negb (is_file x && is_target name) && has_no_target x) es
  end.

(** The names of the files to process, read off the snapshot. *)
Definition target_files (es : entries) : list string :=
  List.map fst (List.filter (fun e => is_file (snd e) && is_target (fst e)) es).

(** The file [name] with contents [d] is in the directory, or in the
    subfolder of its category. *)
Definition kept (name : string) (d : bytes) (es : entries) : Prop :=
  lookup_entry name es = Some (File d) \/
  exists r w sub,
    lookup_entry (folder_of name) es = Some (Dir r w sub) /\
    lookup_entry name sub = Some (File d).

(** The character [c] does not occur in [s]. *)
Fixpoint lacks (c : ascii) (s : string) : bool :=
  match s with
  | EmptyString => true
  | String d s' => negb (Ascii.eqb d c) && lacks c s'
  end.

(** The node at [current_path/folder/name]. *)
Definition lookup_in (folder name : string) (es : entries) : option node :=
  match lookup_entry folder es with
  | Some (Dir _ _ sub) => lookup_entry name sub
  | _ => None
  end.

(** ** Induction on trees *)

Section NodeInduction.
Variable P : node -> Prop.
Hypothesis P_file : forall d, P (File d).
Hypothesis P_dir : forall r w es, Forall (fun e => P (snd e)) es -> P (Dir r w es).
Hypothesis P_locked : forall r es, P (Locked r es).

(** Induction on a tree, with the property of every entry of a directory
    at hand. *)
Fixpoint node_induction (n : node) : P n :=
  match n with
  | File d => P_file d
  | Dir r w es =>
      P_dir r w es
        ((fix all (es : list (string * node)) : Forall (fun e => P (snd e)) es :=
            match es with
            | [] => List.Forall_nil _
            | (name, x) :: rest =>
                @List.Forall_cons _ (fun e => P (snd e)) (name, x) rest
                  (node_induction x) (all rest)
            end) es)
  | Locked r es => P_locked r es
  end.

End NodeInduction.

(** ** Directories to run the scripts on *)

Definition undecodable_album : entries :=
  [("a.heic", File []); ("b.mov", File [])].

Definition holiday : node :=
  Dir true true
    [("a.heic", File []); ("b.mov", File []);
     ("trip", Dir true true [("c.mp4", File []); ("notes.txt", File [])])].

Definition collision_album : entries :=
  [("a.heic", File []); ("heic", Dir true true [("a.heic", File [])])].

Definition mixed_album : entries :=
  [("a.heic", File []); ("A2.HEIF", File []); ("b.mov", File []);
   ("c.mpg", File []); ("notes", Dir true true [])].

Definition converted_album : entries :=
  [("a.heic", File []); ("a.jpg", File [Byte.x4a])].

Definition flat_album : gmap string HeicToJpg.entry :=
  {[ "a.heic" := HeicToJpg.RegularFile []; "a.jpg" := HeicToJpg.RegularFile [] ]}.

Definition single_mov : entries := [("b.mov", File [])].

Definition refilled_album : entries :=
  [("mov", Dir true true [("old.mov", File [])]); ("b.mov", File [])].

Definition plain_tree : node :=
  Dir true true
    [("notes.txt", File []); ("docs", Dir true true [("scan.jpg", File [Byte.x4a])])].


(** How many directories of the entries bear a name with one of the
    extensions. *)
Definition dirs_matching (exts : list string) (es : entries) : nat :=
  length (List.filter (fun e => is_dir (snd e) && matches exts (fst e)) es).

(** The lines a visit of a directory that cannot be searched can print. *)
Definition is_locked_line (p : path) (e : Organize.event) : bool :=
  match e with
  | Scanning p' | ErrorPermission p' => bool_decide (p' = p)
  | Info _ _ _ _ | Convert _ _ | ErrorConvert _ | Verify
  | ResultMismatch _ _ _ _ _ _ => true
  | _ => false
  end.


Definition readonly_album : entries :=
  [("b.mov", File []); ("mov", Dir true true [])].

Definition nested_heic_album : entries :=
  [("heic", Dir true true [("a.heic", File []); ("b.HEIC", Dir true true []);
                           ("notes.txt", File [])])].

(** An [int] that reads two numerals, for running the command lines. *)
Definition two_numerals : PyRuntime :=
  {| py_int := fun s =>
       if String.eqb s "80" then Some 80%Z
       else if String.eqb s "200" then Some 200%Z else None;
     normpath := fun s => [s] |}.

(** * Properties *)

(** ** Strings *)

Example splitext_plain : splitext "a.heic" = ("a", ".heic").
Proof. reflexivity. Qed.

Example splitext_two_dots : splitext "x.tar.HEIC" = ("x.tar", ".HEIC").
Proof. reflexivity. Qed.

Example splitext_dotfile : splitext ".heic" = (".heic", "").
Proof. reflexivity. Qed.

Example splitext_dir_dot : splitext "d.x/photo" = ("d.x/photo", "").
Proof. reflexivity. Qed.

Example lower_mixed : lower "IMG_01.HeIc" = "img_01.heic".
Proof. reflexivity. Qed.

Example endswith_yes : endswith "img_01.heic" ".heic" = true.
Proof. reflexivity. Qed.

Example endswith_no : endswith "heic" ".heic" = false.
Proof. reflexivity. Qed.

Section StringFacts.

Lemma append_nil_l (s : string) : ("" ++ s)%string = s.
Proof. reflexivity. Qed.

Lemma append_cons (c : ascii) (a b : string) :
  (String c a ++ b)%string = String c (a ++ b).
Proof. reflexivity. Qed.

Lemma lower_app (a b : string) : lower (a ++ b) = (lower a ++ lower b)%string.
Proof.
  induction a as [|c a IH]; [reflexivity |].
  rewrite append_cons. cbn [lower]. now rewrite IH, append_cons.
Qed.

Lemma endswith_refl (s : string) : endswith s s = true.
Proof. destruct s; cbn [endswith]; [reflexivity | now rewrite String.eqb_refl]. Qed.

Lemma endswith_app (p suf : string) : endswith (p ++ suf) suf = true.
Proof.
  induction p as [|c p IH].
  - apply endswith_refl.
  - rewrite append_cons. cbn [endswith]. rewrite IH. apply orb_true_r.
Qed.

Lemma endswith_split (s suf : string) :
  endswith s suf = true -> exists p, s = (p ++ suf)%string.
Proof.
  induction s as [|c s IH]; cbn [endswith]; intros Hs.
  - exists EmptyString. rewrite orb_false_r in Hs.
    apply String.eqb_eq in Hs. now subst.
  - apply orb_true_iff in Hs as [Hs | Hs].
    + exists EmptyString. apply String.eqb_eq in Hs. now rewrite Hs.
    + destruct (IH Hs) as [p ->]. now exists (String c p).
Qed.

Lemma string_app_length (a b : string) :
  String.length (a ++ b) = (String.length a + String.length b)%nat.
Proof.
  induction a as [|c a IH]; [reflexivity |].
  rewrite append_cons. cbn [String.length]. now rewrite IH.
Qed.

(** Two ways to cut one string: the shorter tail is a tail of the longer. *)
Lemma app_tail_endswith (x t p suf : string) :
  (x ++ t)%string = (p ++ suf)%string ->
  (String.length t <= String.length suf)%nat ->
  endswith suf t = true.
Proof.
  revert p. induction x as [|c x IH]; intros p Heq Hlen.
  - rewrite append_nil_l in Heq. subst t. rewrite string_app_length in Hlen.
    destruct p as [|d p]; [apply endswith_refl |].
    cbn [String.length] in Hlen. lia.
  - destruct p as [|d p].
    + rewrite append_nil_l in Heq. subst suf. apply endswith_app.
    + rewrite !append_cons in Heq. injection Heq as _ Heq. now apply (IH p).
Qed.

Lemma endswith_app_short (x t suf : string) :
  endswith (x ++ t) suf = true ->
  (String.length t <= String.length suf)%nat ->
  endswith suf t = true.
Proof.
  intros Hs Hlen. apply endswith_split in Hs as [p Hp].
  now apply (app_tail_endswith x t p suf).
Qed.

End StringFacts.

(** ** Names *)

Section NameFacts.

Lemma jpg_not_match (exts : list string) (base : string) :
  jpg_free exts = true -> matches exts (base ++ ".jpg") = false.
Proof.
  unfold matches, endswith_any, jpg_free. rewrite lower_app.
  change (lower ".jpg") with ".jpg".
  induction exts as [|e exts IH]; cbn [forallb existsb]; [reflexivity |].
  intros Hf. apply andb_true_iff in Hf as [He Hf]. rewrite (IH Hf), orb_false_r.
  apply andb_true_iff in He as [Hlen Hno].
  destruct (endswith (lower base ++ ".jpg") e) eqn:Hend; [| reflexivity].
  apply endswith_app_short in Hend.
  - rewrite Hend in Hno. discriminate.
  - apply Nat.leb_le in Hlen. exact Hlen.
Qed.

Lemma jpg_not_target (base : string) : is_target (base ++ ".jpg") = false.
Proof.
  unfold is_target. now rewrite !jpg_not_match.
Qed.

Lemma reserved_cases (s : string) :
  is_reserved s = true -> s = "heic" \/ s = "mov" \/ s = "mp4".
Proof.
  unfold is_reserved, reserved_names. cbn [existsb].
  rewrite !orb_true_iff, !String.eqb_eq. intuition discriminate.
Qed.

Lemma target_not_reserved (name : string) :
  is_target name = true -> is_reserved name = false.
Proof.
  intros Ht. destruct (is_reserved name) eqn:Hr; [| reflexivity].
  apply reserved_cases in Hr as [-> | [-> | ->]]; discriminate Ht.
Qed.

Lemma jpg_not_reserved (base : string) : is_reserved (base ++ ".jpg") = false.
Proof.
  destruct (is_reserved (base ++ ".jpg")) eqn:Hr; [| reflexivity].
  pose proof (endswith_app base ".jpg") as He.
  apply reserved_cases in Hr as [Hr | [Hr | Hr]]; rewrite Hr in He; discriminate He.
Qed.

Lemma folder_of_reserved (name : string) : is_reserved (folder_of name) = true.
Proof. unfold folder_of. now repeat destruct (matches _ name). Qed.

Lemma reserved_lower (s : string) : is_reserved s = true -> is_reserved (lower s) = true.
Proof. intros Hr. apply reserved_cases in Hr as [-> | [-> | ->]]; reflexivity. Qed.

End NameFacts.

(** ** The entries of a directory *)

Section EntryFacts.

Lemma lookup_entry_app (k : string) (es es' : entries) :
  lookup_entry k (es ++ es') =
  match lookup_entry k es with Some x => Some x | None => lookup_entry k es' end.
Proof.
  induction es as [|[n x] es IH]; cbn [lookup_entry app]; [reflexivity |].
  now destruct (String.eqb n k).
Qed.

Lemma lookup_entry_app_ne (k n : string) (x : node) (es : entries) :
  n <> k -> lookup_entry k (es ++ [(n, x)]) = lookup_entry k es.
Proof.
  intros Hne. rewrite lookup_entry_app. cbn [lookup_entry].
  apply String.eqb_neq in Hne. rewrite Hne. now destruct (lookup_entry k es).
Qed.

Lemma lookup_entry_app_new (k : string) (x : node) (es : entries) :
  lookup_entry k es = None -> lookup_entry k (es ++ [(k, x)]) = Some x.
Proof.
  intros Hk. rewrite lookup_entry_app, Hk. cbn [lookup_entry].
  now rewrite String.eqb_refl.
Qed.

Lemma lookup_remove_eq (k : string) (es : entries) :
  lookup_entry k (remove_entry k es) = None.
Proof.
  induction es as [|[n x] es IH]; cbn [remove_entry List.filter fst]; [reflexivity |].
  destruct (String.eqb n k) eqn:Hn; cbn [negb lookup_entry]; [exact IH |].
  now rewrite Hn.
Qed.

Lemma lookup_remove_ne (k n : string) (es : entries) :
  n <> k -> lookup_entry k (remove_entry n es) = lookup_entry k es.
Proof.
  intros Hne. induction es as [|[m x] es IH]; [reflexivity |].
  cbn [remove_entry List.filter fst lookup_entry].
  destruct (String.eqb m n) eqn:Hm; cbn [negb lookup_entry].
  - apply String.eqb_eq in Hm. subst m.
    apply String.eqb_neq in Hne. now rewrite Hne.
  - destruct (String.eqb m k); [reflexivity | exact IH].
Qed.

Lemma lookup_update_eq (k : string) (x : node) (es : entries) :
  lookup_entry k es <> None -> lookup_entry k (update_entry k x es) = Some x.
Proof.
  induction es as [|[n y] es IH]; cbn [lookup_entry update_entry]; [congruence |].
  destruct (String.eqb n k) eqn:Hn; cbn [lookup_entry]; rewrite Hn; auto.
Qed.

Lemma lookup_update_ne (k n : string) (x : node) (es : entries) :
  n <> k -> lookup_entry k (update_entry n x es) = lookup_entry k es.
Proof.
  intros Hne. induction es as [|[m y] es IH]; [reflexivity |].
  cbn [update_entry lookup_entry].
  destruct (String.eqb m n) eqn:Hm; cbn [lookup_entry].
  - apply String.eqb_eq in Hm. subst m.
    apply String.eqb_neq in Hne. now rewrite Hne.
  - now rewrite IH.
Qed.

Lemma in_remove_entry (e : string * node) (k : string) (es : entries) :
  In e (remove_entry k es) <-> In e es /\ fst e <> k.
Proof.
  unfold remove_entry. rewrite filter_In, negb_true_iff, String.eqb_neq. tauto.
Qed.

Lemma in_update_entry (e : string * node) (k : string) (x : node) (es : entries) :
  In e (update_entry k x es) -> In e es \/ e = (k, x).
Proof.
  induction es as [|[n y] es IH]; cbn [update_entry]; [tauto |].
  destruct (String.eqb n k) eqn:Hn; cbn [In].
  - apply String.eqb_eq in Hn. subst n. intros [<- | Hin]; auto.
  - intros [<- | Hin]; auto. destruct (IH Hin); auto.
Qed.

End EntryFacts.

(** ** safe_move *)

Section SafeMove.

(** The ways out of [safe_move]: the exception of [os.makedirs]; [False]
    with the directory as it was once the folder is there; [True] with the
    file moved; [False] after the copy was written and the unlink raised. *)
Lemma safe_move_inv (w : bool) (src folder : string) (es es' : entries)
    (r : result bool) (l : log) :
  safe_move w src folder es = (r, es', l) ->
  (r = Raise PermissionError /\ es' = es /\ l = []) \/
  (exists es1, with_folder folder es es1 /\ r = Ok false /\ es' = es1 /\
     (l = [SkipMove src folder] \/ l = [ErrorMove src])) \/
  (exists es1 r' w' sub x, with_folder folder es es1 /\ r = Ok true /\ l = [] /\
     lookup_entry folder es1 = Some (Dir r' w' sub) /\
     lookup_entry src es1 = Some x /\
     lookup_entry src sub = None /\
     es' = update_entry folder (Dir r' w' (sub ++ [(src, x)])) (remove_entry src es1)) \/
  (exists es1 r' sub d, with_folder folder es es1 /\ r = Ok false /\
     l = [ErrorMove src] /\ w = false /\
     lookup_entry folder es1 = Some (Dir r' true sub) /\
     lookup_entry src es1 = Some (File d) /\
     lookup_entry src sub = None /\
     es' = update_entry folder (Dir r' true (sub ++ [(src, File d)])) es1).
Proof.
  unfold safe_move, path_exists, makedirs. cbv zeta.
  assert (Hstep : forall es1, with_folder folder es es1 ->
    (if path_exists_in folder src es1
     then (Ok false, es1, [SkipMove src folder])
     else match shutil_move w src folder es1 with
          | (Ok _, es2) => (Ok true, es2, [])
          | (Raise _, es2) => (Ok false, es2, [ErrorMove src])
          end) = (r, es', l) ->
    (exists es1, with_folder folder es es1 /\ r = Ok false /\ es' = es1 /\
       (l = [SkipMove src folder] \/ l = [ErrorMove src])) \/
    (exists es1 r' w' sub x, with_folder folder es es1 /\ r = Ok true /\ l = [] /\
       lookup_entry folder es1 = Some (Dir r' w' sub) /\
       lookup_entry src es1 = Some x /\
       lookup_entry src sub = None /\
       es' = update_entry folder (Dir r' w' (sub ++ [(src, x)])) (remove_entry src es1)) \/
    (exists es1 r' sub d, with_folder folder es es1 /\ r = Ok false /\
       l = [ErrorMove src] /\ w = false /\
       lookup_entry folder es1 = Some (Dir r' true sub) /\
       lookup_entry src es1 = Some (File d) /\
       lookup_entry src sub = None /\
       es' = update_entry folder (Dir r' true (sub ++ [(src, File d)])) es1)).
  { intros es1 Hes1. unfold path_exists_in, path_exists, shutil_move.
    destruct (lookup_entry folder es1) as [[d | r' w' sub | r' sub] |] eqn:Hf.
    - destruct (lookup_entry src es1); intros [= <- <- <-]; left; exists es1; auto.
    - destruct (lookup_entry src sub) eqn:Hsub.
      + intros [= <- <- <-]. left. exists es1. auto.
      + destruct (lookup_entry src es1) as [x |] eqn:Hsrc.
        * destruct w, w'; cbn [andb].
          -- intros [= <- <- <-]. right. left. exists es1, r', true, sub, x. auto 10.
          -- destruct x; intros [= <- <- <-]; left; exists es1; auto.
          -- destruct x as [d | ? ? ? | ? ?]; intros [= <- <- <-].
             ++ right. right. exists es1, r', sub, d. auto 10.
             ++ left. exists es1. auto.
             ++ left. exists es1. auto.
          -- destruct x; intros [= <- <- <-]; left; exists es1; auto.
        * intros [= <- <- <-]. left. exists es1. auto.
    - destruct (lookup_entry src es1); intros [= <- <- <-]; left; exists es1; auto.
    - destruct (lookup_entry src es1); intros [= <- <- <-]; left; exists es1; auto. }
  destruct (lookup_entry folder es) eqn:Hfolder.
  - intros Hrun. right. apply (Hstep es); [now left | exact Hrun].
  - destruct w.
    + intros Hrun. right.
      apply (Hstep (es ++ [(folder, Dir true true [])])); [now right | exact Hrun].
    + intros [= <- <- <-]. now left.
Qed.

(** Whatever happens, [safe_move] leaves every other entry of the current
    directory as it was. *)
Lemma safe_move_frame (w : bool) (src folder k : string) (es es' : entries)
    (r : result bool) (l : log) :
  safe_move w src folder es = (r, es', l) ->
  k <> src -> k <> folder ->
  lookup_entry k es' = lookup_entry k es.
Proof.
  intros Hrun Hsrc Hfolder.
  assert (Hwf : forall es1, with_folder folder es es1 ->
                            lookup_entry k es1 = lookup_entry k es).
  { intros es1 [-> | [_ ->]]; [reflexivity |].
    apply lookup_entry_app_ne. congruence. }
  apply safe_move_inv in Hrun
    as [(_ & -> & _)
       | [(es1 & H1 & _ & -> & _)
         | [(es1 & r' & w' & sub & x & H1 & _ & _ & _ & _ & _ & ->)
           | (es1 & r' & sub & d & H1 & _ & _ & _ & _ & _ & _ & ->)]]].
  - reflexivity.
  - now apply Hwf.
  - rewrite lookup_update_ne, lookup_remove_ne by congruence. now apply Hwf.
  - rewrite lookup_update_ne by congruence. now apply Hwf.
Qed.

End SafeMove.

(** ** Claims about single files *)

Section FileClaims.
Context `{ImageCodec}.


(** C1, as the code has it.  When the conversion of a HEIC/HEIF file raises,
    the [continue] of the handler skips the file altogether: the two lines
    are printed, the directory is left as it was (the original is not moved
    and no [heic/] folder is made for it), and the loop goes on with the next
    file. *)
Theorem failed_conversion_skips_file (w : bool) (q : Z) (name : string)
    (rest : list string) (es : entries) (e : exn) :
  matches heic_exts name = true ->
  path_exists (fst (splitext name) ++ ".jpg") es = false ->
  convert w q name (fst (splitext name) ++ ".jpg") es = Raise e ->
  process_entry w q name es
    = (Ok tt, es, [Convert name (fst (splitext name)); ErrorConvert name]) /\
  process_files w q (name :: rest) es
    = (let '(r, es', l) := process_files w q rest es in
       (r, es', [Convert name (fst (splitext name)); ErrorConvert name] ++ l)).
Proof.
  intros Hm Hjpg Hconv.
  assert (Hentry : process_entry w q name es
            = (Ok tt, es, [Convert name (fst (splitext name)); ErrorConvert name])).
  { unfold process_entry. unfold matches in Hm. now rewrite Hm, Hjpg, Hconv. }
  split; [exact Hentry |].
  cbn [process_files]. now rewrite Hentry.
Qed.

(** Every entry other than the file and its folder survives [move_to]. *)
Lemma move_to_frame (w : bool) (name folder k : string) (es es' : entries)
    (r : result unit) (l : log) :
  move_to w name folder es = (r, es', l) ->
  k <> name -> k <> folder ->
  lookup_entry k es' = lookup_entry k es.
Proof.
  unfold move_to. destruct (safe_move w name folder es) as [[r0 es0] l0] eqn:Hsm.
  intros Hrun Hname Hfolder.
  assert (es' = es0) as -> by (destruct r0 as [[|] |]; congruence).
  now apply (safe_move_frame w name folder k es es0 r0 l0).
Qed.



End FileClaims.

(** ** The walk *)

Section Walk.
Context `{ImageCodec}.

Lemma basename_snoc (p : path) (name : string) : basename (p ++ [name]) = name.
Proof. unfold basename. apply last_last. Qed.

Lemma children_cons (p : path) (q : Z) (name : string) (x : node) (rest : entries) :
  children p q ((name, x) :: rest) =
  (let '(x', l1) := if is_dir x then process_directory (p ++ [name]) q x else (x, []) in
   let '(rest', l2) := children p q rest in
   ((name, x') :: rest', l1 ++ l2)).
Proof. reflexivity. Qed.


Lemma process_directory_dir (p : path) (q : Z) (r w : bool) (es : entries) :
  process_directory p q (Dir r w es) =
  if is_reserved (lower (basename p)) then (Dir r w es, [])
  else if negb r then (Dir r w es, [Scanning p; ErrorPermission p])
  else
    let '(es1, l1) := children p q es in
    let '(es2, l2) := organize_files p w q es es1 in
    (Dir r w es2, Scanning p :: l1 ++ l2).
Proof. reflexivity. Qed.

(** A directory that cannot be searched always comes back as it was. *)
Lemma process_directory_locked (p : path) (q : Z) (r : bool) (es : entries) :
  process_directory p q (Locked r es) =
  (Locked r es,
   if is_reserved (lower (basename p)) then []
   else if negb r then [Scanning p; ErrorPermission p]
   else Scanning p :: organize_locked p es).
Proof.
  cbn [process_directory].
  destruct (is_reserved (lower (basename p))); [reflexivity |].
  now destruct (negb r).
Qed.

(** C4.  A directory whose own name is, case-insensitively, [heic], [mov] or
    [mp4] is left at once: it comes back as it was, nothing in it is listed,
    visited or moved, and nothing is printed. *)
Theorem reserved_directory_untouched (p : path) (q : Z) (r w : bool) (es : entries) :
  is_reserved (lower (basename p)) = true ->
  process_directory p q (Dir r w es) = (Dir r w es, []).
Proof. intros Hr. now rewrite process_directory_dir, Hr. Qed.


(** C9.  The recount takes every matching entry of the subfolder, also those
    that were there before the run: a directory with [b.mov] and a folder
    [mov/] that already holds [old.mov] has its one move go through, expects
    one file in [mov/], finds two, and prints the mismatch. *)
Theorem verification_counts_preexisting_files :
  exists (n n' : node) (l : log),
    n = Dir true true [("mov", Dir true true [("old.mov", File [])]); ("b.mov", File [])] /\
    process_directory ["photos"] 95 n = (n', l) /\
    n' = Dir true true [("mov", Dir true true [("old.mov", File []); ("b.mov", File [])])] /\
    failure_free l = true /\
    In (Moved "b.mov" "mov") l /\
    In (ResultMismatch 0 0 1 2 0 0) l.
Proof.
  eexists _, _, _. split; [reflexivity |]. split; [vm_compute; reflexivity |].
  split; [reflexivity |]. split; [reflexivity |]. cbn [In]. split; auto 10.
Qed.

End Walk.

(** ** One file of the loop *)

Section LoopBody.
Context `{ImageCodec}.

Lemma failure_free_app (a b : log) :
  failure_free (a ++ b) = failure_free a && failure_free b.
Proof. apply forallb_app. Qed.

Lemma with_folder_lookup_ne (folder k : string) (es es1 : entries) :
  with_folder folder es es1 -> k <> folder -> lookup_entry k es1 = lookup_entry k es.
Proof.
  intros [-> | [_ ->]] Hne; [reflexivity |].
  apply lookup_entry_app_ne. congruence.
Qed.

Lemma convert_inv (w : bool) (q : Z) (src jpg : string) (es es1 : entries) :
  convert w q src jpg es = Ok es1 -> exists j, es1 = es ++ [(jpg, File j)].
Proof.
  unfold convert. destruct (lookup_entry src es) as [[data | ? ? ? | ? ?] |]; try discriminate.
  destruct (encode_jpeg data q) as [j |]; [| discriminate].
  destruct w; [| discriminate]. intros [= <-]. now exists j.
Qed.

(** A [move_to] that ran to its end without a skip or an error line. *)
Lemma move_to_success (w : bool) (name folder : string) (es es' : entries) (l : log) :
  move_to w name folder es = (Ok tt, es', l) ->
  failure_free l = true ->
  exists es1 r' w' sub x,
    with_folder folder es es1 /\
    lookup_entry folder es1 = Some (Dir r' w' sub) /\
    lookup_entry name es1 = Some x /\
    lookup_entry name sub = None /\
    es' = update_entry folder (Dir r' w' (sub ++ [(name, x)])) (remove_entry name es1).
Proof.
  unfold move_to. destruct (safe_move w name folder es) as [[r0 es0] l0] eqn:Hsm.
  intros Hrun Hff.
  apply safe_move_inv in Hsm
    as [(-> & _)
       | [(es1 & _ & -> & _ & Hl)
         | [(es1 & r' & w' & sub & x & H1 & -> & _ & Hf & Hn & Hs & ->)
           | (es1 & r' & sub & d & _ & -> & -> & _)]]].
  - discriminate Hrun.
  - injection Hrun as _ <-. destruct Hl as [-> | ->]; discriminate Hff.
  - injection Hrun as <- _. exists es1, r', w', sub, x. auto.
  - injection Hrun as _ <-. discriminate Hff.
Qed.

(** The shape of the directory after a target file was handled without a
    failure line: perhaps a new JPEG, perhaps a new folder, and the file
    appended to its folder. *)
Lemma process_entry_success (w : bool) (q : Z) (name : string) (es es' : entries) (l : log) :
  process_entry w q name es = (Ok tt, es', l) ->
  failure_free l = true ->
  is_target name = true ->
  exists es0 es1 r' w' sub x,
    (es0 = es \/ exists j, es0 = es ++ [(jpg_of name, File j)]) /\
    with_folder (folder_of name) es0 es1 /\
    lookup_entry (folder_of name) es1 = Some (Dir r' w' sub) /\
    lookup_entry name es1 = Some x /\
    lookup_entry name sub = None /\
    es' = update_entry (folder_of name) (Dir r' w' (sub ++ [(name, x)]))
            (remove_entry name es1).
Proof.
  unfold process_entry, is_target, folder_of, matches.
  destruct (endswith_any (lower name) heic_exts) eqn:Hh.
  - intros Hrun Hff _.
    destruct (negb (path_exists (fst (splitext name) ++ ".jpg") es)).
    + destruct (convert w q name (fst (splitext name) ++ ".jpg") es) as [es0 | e] eqn:Hc.
      * destruct (move_to w name "heic" es0) as [[r es2] l2] eqn:Hm.
        injection Hrun as -> <- <-. cbn in Hff.
        apply convert_inv in Hc as [j ->].
        destruct (move_to_success _ _ _ _ _ _ Hm Hff) as (es1 & r' & w' & sub & x & Hshape).
        exists (es ++ [(jpg_of name, File j)]), es1, r', w', sub, x.
        split; [right; now exists j | exact Hshape].
      * injection Hrun as _ <-. discriminate Hff.
    + destruct (move_to w name "heic" es) as [[r es2] l2] eqn:Hm.
      injection Hrun as -> <- <-. cbn in Hff.
      destruct (move_to_success _ _ _ _ _ _ Hm Hff) as (es1 & r' & w' & sub & x & Hshape).
      exists es, es1, r', w', sub, x. split; [now left | exact Hshape].
  - destruct (endswith_any (lower name) mov_exts) eqn:Hm.
    + intros Hrun Hff _.
      destruct (move_to_success _ _ _ _ _ _ Hrun Hff) as (es1 & r' & w' & sub & x & Hshape).
      exists es, es1, r', w', sub, x. split; [now left | exact Hshape].
    + destruct (endswith_any (lower name) mp4_exts) eqn:H4; [| discriminate].
      intros Hrun Hff _.
      destruct (move_to_success _ _ _ _ _ _ Hrun Hff) as (es1 & r' & w' & sub & x & Hshape).
      exists es, es1, r', w', sub, x. split; [now left | exact Hshape].
Qed.

Lemma process_entry_other (w : bool) (q : Z) (name : string) (es : entries) :
  is_target name = false -> process_entry w q name es = (Ok tt, es, []).
Proof.
  unfold process_entry, is_target, matches. intros Ht.
  apply orb_false_iff in Ht as [Ht H4]. apply orb_false_iff in Ht as [Hh Hm].
  now rewrite Hh, Hm, H4.
Qed.

End LoopBody.

(** ** Counting *)

Section Counting.
Context `{ImageCodec}.

Lemma count_lookup (f : string) (exts : list string) (es es' : entries) :
  lookup_entry f es' = lookup_entry f es ->
  count_files_in_folder f exts es' = count_files_in_folder f exts es.
Proof. unfold count_files_in_folder. now intros ->. Qed.

Lemma target_matches_its_folder (name : string) :
  is_target name = true -> matches (category_exts (folder_of name)) name = true.
Proof.
  unfold is_target, folder_of, category_exts.
  destruct (matches heic_exts name) eqn:Hh; [intros _; exact Hh |].
  destruct (matches mov_exts name) eqn:Hm; [intros _; exact Hm |].
  destruct (matches mp4_exts name) eqn:H4; [intros _; exact H4 | discriminate].
Qed.

Lemma reserved_neq_target (f name : string) :
  is_reserved f = true -> is_target name = true -> name <> f.
Proof.
  intros Hf Ht ->. apply target_not_reserved in Ht. congruence.
Qed.

Lemma reserved_neq_jpg (f name : string) : is_reserved f = true -> jpg_of name <> f.
Proof.
  intros Hf Heq. unfold jpg_of in Heq.
  pose proof (jpg_not_reserved (fst (splitext name))) as Hj. congruence.
Qed.

(** One file handled without a failure line adds one to the recount of its
    folder and leaves the other recounts as they were. *)
Lemma process_entry_counts (w : bool) (q : Z) (name f : string) (es es' : entries)
    (l : log) (a : nat) :
  process_entry w q name es = (Ok tt, es', l) ->
  failure_free l = true ->
  is_target name = true ->
  is_reserved f = true ->
  count_files_in_folder f (category_exts f) es = Ok a ->
  count_files_in_folder f (category_exts f) es'
    = Ok (a + if String.eqb (folder_of name) f then 1 else 0)%nat.
Proof.
  intros Hrun Hff Ht Hf Hcount.
  destruct (process_entry_success _ _ _ _ _ _ Hrun Hff Ht)
    as (es0 & es1 & r' & w' & sub & x & H0 & H1 & Hfolder & Hname & Hsub & ->).
  assert (Hnf : name <> f) by now apply reserved_neq_target.
  assert (Hc0 : count_files_in_folder f (category_exts f) es0 = Ok a).
  { rewrite <- Hcount. apply count_lookup.
    destruct H0 as [-> | [j ->]]; [reflexivity |].
    apply lookup_entry_app_ne. now apply reserved_neq_jpg. }
  destruct (String.eqb (folder_of name) f) eqn:Heq.
  - apply String.eqb_eq in Heq. subst f.
    assert (Hc1 : count_files_in_folder (folder_of name) (category_exts (folder_of name)) es1
                  = Ok a).
    { destruct H1 as [-> | [Hnone ->]]; [exact Hc0 |].
      unfold count_files_in_folder in Hc0 |- *. rewrite Hnone in Hc0.
      now rewrite lookup_entry_app_new. }
    unfold count_files_in_folder in Hc1 |- *. rewrite Hfolder in Hc1.
    rewrite lookup_update_eq.
    + destruct r'; [| discriminate]. injection Hc1 as <-.
      rewrite List.filter_app, length_app. cbn [List.filter fst].
      now rewrite (target_matches_its_folder name Ht).
    + rewrite lookup_remove_ne by exact Hnf. congruence.
  - apply String.eqb_neq in Heq. rewrite Nat.add_0_r, <- Hc0.
    apply count_lookup.
    rewrite lookup_update_ne, lookup_remove_ne by assumption.
    now apply (with_folder_lookup_ne (folder_of name)).
Qed.

Lemma process_files_cons (w : bool) (q : Z) (name : string) (rest : list string)
    (es es' : entries) (l : log) :
  process_files w q (name :: rest) es = (Ok tt, es', l) ->
  exists es1 l1 l2,
    process_entry w q name es = (Ok tt, es1, l1) /\
    process_files w q rest es1 = (Ok tt, es', l2) /\
    l = l1 ++ l2.
Proof.
  cbn [process_files].
  destruct (process_entry w q name es) as [[[[] | e] es1] l1]; [| discriminate].
  destruct (process_files w q rest es1) as [[r2 es2] l2] eqn:Hrest.
  intros [= -> <- <-]. now exists es1, l1, l2.
Qed.

(** The loop adds to each recount the files it had for that folder. *)
Lemma process_files_counts (w : bool) (q : Z) (f : string) (todo : list string) :
  is_reserved f = true ->
  forall (es es' : entries) (l : log) (a : nat),
  process_files w q todo es = (Ok tt, es', l) ->
  failure_free l = true ->
  count_files_in_folder f (category_exts f) es = Ok a ->
  count_files_in_folder f (category_exts f) es' = Ok (a + bound_for f todo)%nat.
Proof.
  intros Hf. induction todo as [|name rest IH]; intros es es' l a Hrun Hff Hcount.
  - injection Hrun as <- _. now rewrite Nat.add_0_r.
  - apply process_files_cons in Hrun as (es1 & l1 & l2 & Hentry & Hrest & ->).
    rewrite failure_free_app in Hff. apply andb_true_iff in Hff as [Hff1 Hff2].
    unfold bound_for. cbn [List.filter].
    destruct (is_target name) eqn:Ht; cbn [andb].
    + pose proof (process_entry_counts _ _ _ _ _ _ _ _ Hentry Hff1 Ht Hf Hcount) as Hc1.
      rewrite (IH _ _ _ _ Hrest Hff2 Hc1). unfold bound_for.
      destruct (String.eqb (folder_of name) f); cbn [length]; f_equal; lia.
    + rewrite (process_entry_other _ _ _ _ Ht) in Hentry. injection Hentry as <- _.
      now rewrite (IH _ _ _ _ Hrest Hff2 Hcount).
Qed.

Lemma bound_for_cons (f name : string) (todo : list string) :
  bound_for f (name :: todo)
  = ((if is_target name && String.eqb (folder_of name) f then 1 else 0)
     + bound_for f todo)%nat.
Proof.
  unfold bound_for. cbn [List.filter].
  now destruct (is_target name && String.eqb (folder_of name) f).
Qed.

(** The expected counts are the numbers of files to process, by folder. *)
Lemma classify_bound (es : entries) :
  c_heic (fst (classify es)) = bound_for "heic" (snd (classify es)) /\
  c_mov (fst (classify es)) = bound_for "mov" (snd (classify es)) /\
  c_mp4 (fst (classify es)) = bound_for "mp4" (snd (classify es)).
Proof.
  induction es as [|[name x] es IH]; [now cbn |].
  cbn [classify]. destruct (classify es) as [c todo]. cbn [fst snd] in IH.
  destruct IH as (Hh & Hm & H4).
  destruct (is_file x); [| now cbn].
  destruct (matches heic_exts name) eqn:Eh;
    [| destruct (matches mov_exts name) eqn:Em;
       [| destruct (matches mp4_exts name) eqn:E4]];
    cbn [fst snd c_heic c_mov c_mp4]; auto;
    rewrite !bound_for_cons; unfold is_target, folder_of; rewrite Eh;
    try rewrite Em; try rewrite E4; cbn; auto.
Qed.

Lemma verify_success (p : path) (c : counts) (es : entries) :
  count_files_in_folder "heic" heic_exts es = Ok (c_heic c) ->
  count_files_in_folder "mov" mov_exts es = Ok (c_mov c) ->
  count_files_in_folder "mp4" mp4_exts es = Ok (c_mp4 c) ->
  verify p c es = [Verify; ResultSuccess (total c)].
Proof.
  intros Hh Hm H4. unfold verify. rewrite Hh, Hm, H4. now rewrite !Nat.eqb_refl.
Qed.

Lemma children_lookup_none (p : path) (q : Z) (k : string) (es : entries) :
  lookup_entry k es = None -> lookup_entry k (fst (children p q es)) = None.
Proof.
  induction es as [|[name x] es IH]; [reflexivity |].
  rewrite children_cons. cbn [lookup_entry].
  destruct (if is_dir x then process_directory (p ++ [name]) q x else (x, [])) as [x' l1].
  destruct (children p q es) as [es' l2]. cbn [fst lookup_entry] in *.
  destruct (String.eqb name k); [discriminate | exact IH].
Qed.

End Counting.

(** ** Verification *)

Section Verification.
Context `{ImageCodec}.

Lemma endswith_two (s a b : string) :
  endswith s a = true -> endswith s b = true ->
  endswith a b = true \/ endswith b a = true.
Proof.
  intros Ha Hb. apply endswith_split in Ha as [pa Hpa]. apply endswith_split in Hb as [pb Hpb].
  destruct (Nat.le_gt_cases (String.length b) (String.length a)) as [Hle | Hgt].
  - left. apply (app_tail_endswith pb b pa a); congruence.
  - right. apply (app_tail_endswith pa a pb b); [congruence | lia].
Qed.

Lemma disjoint_matches (A B : list string) (name : string) :
  exts_disjoint A B = true -> matches A name = true -> matches B name = false.
Proof.
  unfold exts_disjoint, matches, endswith_any. intros Hd HA.
  destruct (existsb (endswith (lower name)) B) eqn:HB; [| reflexivity].
  apply existsb_exists in HA as (a & Ha & Hea). apply existsb_exists in HB as (b & Hb & Heb).
  rewrite forallb_forall in Hd. specialize (Hd a Ha).
  rewrite forallb_forall in Hd. specialize (Hd b Hb).
  apply andb_true_iff in Hd as [H1 H2].
  destruct (endswith_two _ _ _ Hea Heb) as [E | E]; rewrite E in *; discriminate.
Qed.

(** The expected counts are the numbers of files with the extensions of
    each category. *)
Lemma classify_counts (es : entries) :
  c_heic (fst (classify es)) = files_matching heic_exts es /\
  c_mov (fst (classify es)) = files_matching mov_exts es /\
  c_mp4 (fst (classify es)) = files_matching mp4_exts es.
Proof.
  unfold files_matching.
  induction es as [|[name x] es IH]; [now cbn |].
  cbn [classify List.filter fst snd]. destruct (classify es) as [c todo].
  cbn [fst] in IH. destruct IH as (Hh & Hm & H4).
  destruct (is_file x); [| now cbn].
  destruct (matches heic_exts name) eqn:Eh.
  - rewrite (disjoint_matches heic_exts mov_exts name eq_refl Eh),
            (disjoint_matches heic_exts mp4_exts name eq_refl Eh).
    cbn. auto.
  - destruct (matches mov_exts name) eqn:Em.
    + rewrite (disjoint_matches mov_exts mp4_exts name eq_refl Em). cbn. auto.
    + destruct (matches mp4_exts name); cbn; auto.
Qed.

Lemma safe_move_lines (w : bool) (src folder : string) (es es' : entries)
    (r : result bool) (l : log) :
  safe_move w src folder es = (r, es', l) -> forallb is_file_line l = true.
Proof.
  intros Hrun.
  apply safe_move_inv in Hrun
    as [(_ & _ & ->)
       | [(es1 & _ & _ & _ & [-> | ->])
         | [(es1 & r' & w' & sub & x & _ & _ & -> & _)
           | (es1 & r' & sub & d & _ & _ & -> & _)]]];
    reflexivity.
Qed.

Lemma move_to_lines (w : bool) (name folder : string) (es es' : entries)
    (r : result unit) (l : log) :
  move_to w name folder es = (r, es', l) -> forallb is_file_line l = true.
Proof.
  unfold move_to. destruct (safe_move w name folder es) as [[r0 es0] l0] eqn:Hsm.
  apply safe_move_lines in Hsm.
  destruct r0 as [[|] |]; intros [= <- <- <-]; try exact Hsm.
  rewrite forallb_app, Hsm. reflexivity.
Qed.

Lemma process_entry_lines (w : bool) (q : Z) (name : string) (es es' : entries)
    (r : result unit) (l : log) :
  process_entry w q name es = (r, es', l) -> forallb is_file_line l = true.
Proof.
  unfold process_entry.
  destruct (endswith_any (lower name) heic_exts).
  - destruct (negb (path_exists (fst (splitext name) ++ ".jpg") es)).
    + destruct (convert w q name (fst (splitext name) ++ ".jpg") es) as [es0 | e].
      * destruct (move_to w name "heic" es0) as [[r0 es2] l2] eqn:Hm.
        apply move_to_lines in Hm. intros [= <- <- <-]. exact Hm.
      * intros [= <- <- <-]. reflexivity.
    + destruct (move_to w name "heic" es) as [[r0 es2] l2] eqn:Hm.
      apply move_to_lines in Hm. intros [= <- <- <-]. exact Hm.
  - destruct (endswith_any (lower name) mov_exts); [apply move_to_lines |].
    destruct (endswith_any (lower name) mp4_exts); [apply move_to_lines |].
    intros [= <- <- <-]. reflexivity.
Qed.

Lemma process_files_lines (w : bool) (q : Z) (todo : list string) :
  forall (es es' : entries) (r : result unit) (l : log),
  process_files w q todo es = (r, es', l) -> forallb is_file_line l = true.
Proof.
  induction todo as [|name rest IH]; intros es es' r l; cbn [process_files].
  - intros [= <- <- <-]. reflexivity.
  - destruct (process_entry w q name es) as [[r1 es1] l1] eqn:Hentry.
    apply process_entry_lines in Hentry.
    destruct r1 as [[] | e].
    + destruct (process_files w q rest es1) as [[r2 es2] l2] eqn:Hrest.
      apply IH in Hrest. intros [= <- <- <-]. now rewrite forallb_app, Hentry, Hrest.
    + intros [= <- <- <-]. exact Hentry.
Qed.

Lemma file_lines_no_mismatch (l : log) :
  forallb is_file_line l = true -> no_mismatch l = true.
Proof.
  unfold no_mismatch. rewrite !forallb_forall. intros Hl e He.
  specialize (Hl e He). now destruct e.
Qed.

End Verification.

Section VerificationClaim.
Context `{ImageCodec}.

Lemma handler_is_failure (p : path) (e : exn) : is_failure (handler p e) = true.
Proof. now destruct e. Qed.

Lemma count_missing (f : string) (exts : list string) (es : entries) :
  lookup_entry f es = None -> count_files_in_folder f exts es = Ok 0%nat.
Proof. unfold count_files_in_folder. now intros ->. Qed.

(** C6.  In a directory with no [heic], [mov] or [mp4] entry, holding N, M
    and K files of the three categories, a visit whose own lines report no
    skipped or failed conversion or move ends with the three recounts equal
    to N, M and K; no mismatch line is printed, and when there was a file to
    move the visit ends on the success line for N + M + K files. *)
Theorem verification_accurate (p : path) (w : bool) (q : Z)
    (es es1 es2 : entries) (lc lv : log) :
  is_reserved (lower (basename p)) = false ->
  lookup_entry "heic" es = None ->
  lookup_entry "mov" es = None ->
  lookup_entry "mp4" es = None ->
  children p q es = (es1, lc) ->
  organize_files p w q es es1 = (es2, lv) ->
  failure_free lv = true ->
  process_directory p q (Dir true w es) = (Dir true w es2, Scanning p :: lc ++ lv) /\
  count_files_in_folder "heic" heic_exts es2 = Ok (files_matching heic_exts es) /\
  count_files_in_folder "mov" mov_exts es2 = Ok (files_matching mov_exts es) /\
  count_files_in_folder "mp4" mp4_exts es2 = Ok (files_matching mp4_exts es) /\
  no_mismatch lv = true /\
  ((files_matching heic_exts es + files_matching mov_exts es
      + files_matching mp4_exts es = 0 /\ lv = [])%nat \/
   exists l0,
     lv = l0 ++ [Verify;
                 ResultSuccess (files_matching heic_exts es + files_matching mov_exts es
                                + files_matching mp4_exts es)]).
Proof.
  intros Hp Hh Hm H4 Hchildren Horg Hff.
  split.
  { now rewrite process_directory_dir, Hp, Hchildren, Horg. }
  assert (Hfresh : forall f, lookup_entry f es = None -> lookup_entry f es1 = None).
  { intros f Hf. pose proof (children_lookup_none p q f es Hf) as Hn.
    now rewrite Hchildren in Hn. }
  destruct (classify_counts es) as (Nh & Nm & N4).
  destruct (classify_bound es) as (Bh & Bm & B4).
  unfold organize_files in Horg.
  destruct (classify es) as [c todo]. cbn [fst snd] in *.
  rewrite <- Nh, <- Nm, <- N4. fold (total c).
  destruct (Nat.eqb (total c) 0) eqn:Htotal.
  - injection Horg as <- <-. apply Nat.eqb_eq in Htotal.
    assert (c_heic c = 0 /\ c_mov c = 0 /\ c_mp4 c = 0)%nat as (-> & -> & ->)
      by (unfold total in Htotal; lia).
    rewrite !count_missing by auto. auto 10.
  - destruct (process_files w q todo es1) as [[[[] | e] es'] l] eqn:Hloop.
    + injection Horg as <- <-.
      cbn [failure_free forallb is_failure negb andb] in Hff.
      change (failure_free (l ++ verify p c es') = true) in Hff.
      rewrite failure_free_app in Hff. apply andb_true_iff in Hff as [Hl _].
      assert (Hcount : forall f, is_reserved f = true -> lookup_entry f es = None ->
                count_files_in_folder f (category_exts f) es'
                = Ok (bound_for f todo)).
      { intros f Hf Hnone.
        apply (process_files_counts w q f todo Hf es1 es' l 0%nat Hloop Hl).
        apply count_missing. auto. }
      pose proof (Hcount "heic" eq_refl Hh) as Ch.
      pose proof (Hcount "mov" eq_refl Hm) as Cm.
      pose proof (Hcount "mp4" eq_refl H4) as C4.
      change (category_exts "heic") with heic_exts in Ch.
      change (category_exts "mov") with mov_exts in Cm.
      change (category_exts "mp4") with mp4_exts in C4.
      rewrite <- Bh in Ch. rewrite <- Bm in Cm. rewrite <- B4 in C4.
      rewrite (verify_success p c es' Ch Cm C4).
      repeat split; try assumption.
      * unfold no_mismatch. cbn [forallb is_mismatch negb andb].
        rewrite forallb_app. cbn [forallb is_mismatch negb andb].
        rewrite andb_true_r.
        apply (file_lines_no_mismatch l), (process_files_lines w q todo es1 es' _ l Hloop).
      * right. exists (Info (total c) (c_heic c) (c_mov c) (c_mp4 c) :: l).
        reflexivity.
    + injection Horg as <- <-.
      cbn [failure_free forallb is_failure negb andb] in Hff.
      change (failure_free (l ++ [handler p e]) = true) in Hff.
      rewrite failure_free_app in Hff. apply andb_true_iff in Hff as [_ Hff].
      cbn [failure_free forallb] in Hff. rewrite handler_is_failure in Hff.
      discriminate Hff.
Qed.

End VerificationClaim.

(** ** A second run *)

Section SecondRun.
Context `{ImageCodec}.

Lemma evolves_refl (es : entries) : evolves es es.
Proof. intros e He. now left. Qed.

Lemma evolves_trans (a b c : entries) : evolves a b -> evolves b c -> evolves a c.
Proof.
  intros Hab Hbc e He. destruct (Hbc e He) as [Hb | Hh]; [now apply Hab | now right].
Qed.

Lemma evolves_snoc (es : entries) (e : string * node) : harmless e -> evolves es (es ++ [e]).
Proof.
  intros Hh e' He'. apply in_app_or in He' as [He' | [<- | []]]; [now left | now right].
Qed.

Lemma with_folder_evolves (folder : string) (es es1 : entries) :
  is_reserved folder = true -> with_folder folder es es1 -> evolves es es1.
Proof.
  intros Hf [-> | [_ ->]]; [apply evolves_refl |].
  apply evolves_snoc. now right.
Qed.

Lemma safe_move_evolves (w : bool) (src folder : string) (es es' : entries)
    (r : result bool) (l : log) :
  is_reserved folder = true ->
  safe_move w src folder es = (r, es', l) -> evolves es es'.
Proof.
  intros Hf Hrun.
  apply safe_move_inv in Hrun
    as [(_ & -> & _)
       | [(es1 & H1 & _ & -> & _)
         | [(es1 & r' & w' & sub & x & H1 & _ & _ & _ & _ & _ & ->)
           | (es1 & r' & sub & d & H1 & _ & _ & _ & _ & _ & _ & ->)]]].
  - apply evolves_refl.
  - now apply (with_folder_evolves folder).
  - apply (evolves_trans _ es1); [now apply (with_folder_evolves folder) |].
    intros e He. apply in_update_entry in He as [He | ->].
    + left. now apply in_remove_entry in He.
    + right. now right.
  - apply (evolves_trans _ es1); [now apply (with_folder_evolves folder) |].
    intros e He. apply in_update_entry in He as [He | ->].
    + now left.
    + right. now right.
Qed.

Lemma move_to_evolves (w : bool) (name folder : string) (es es' : entries)
    (r : result unit) (l : log) :
  is_reserved folder = true ->
  move_to w name folder es = (r, es', l) -> evolves es es'.
Proof.
  unfold move_to. intros Hf.
  destruct (safe_move w name folder es) as [[r0 es0] l0] eqn:Hsm.
  apply (safe_move_evolves _ _ _ _ _ _ _ Hf) in Hsm.
  destruct r0 as [[|] |]; now intros [= _ <- _].
Qed.

Lemma process_entry_evolves (w : bool) (q : Z) (name : string) (es es' : entries)
    (r : result unit) (l : log) :
  process_entry w q name es = (r, es', l) -> evolves es es'.
Proof.
  unfold process_entry.
  destruct (endswith_any (lower name) heic_exts).
  - destruct (negb (path_exists (fst (splitext name) ++ ".jpg") es)).
    + destruct (convert w q name (fst (splitext name) ++ ".jpg") es) as [es0 | e] eqn:Hc.
      * apply convert_inv in Hc as [j ->].
        destruct (move_to w name "heic" (es ++ [((fst (splitext name) ++ ".jpg")%string, File j)]))
          as [[r0 es2] l2] eqn:Hm.
        apply move_to_evolves in Hm; [| reflexivity]. intros [= _ <- _].
        eapply evolves_trans; [| exact Hm]. apply evolves_snoc. now left.
      * intros [= _ <- _]. apply evolves_refl.
    + destruct (move_to w name "heic" es) as [[r0 es2] l2] eqn:Hm.
      apply move_to_evolves in Hm; [| reflexivity]. now intros [= _ <- _].
  - destruct (endswith_any (lower name) mov_exts); [now apply move_to_evolves |].
    destruct (endswith_any (lower name) mp4_exts); [now apply move_to_evolves |].
    intros [= _ <- _]. apply evolves_refl.
Qed.

Lemma process_files_evolves (w : bool) (q : Z) (todo : list string) :
  forall (es es' : entries) (r : result unit) (l : log),
  process_files w q todo es = (r, es', l) -> evolves es es'.
Proof.
  induction todo as [|name rest IH]; intros es es' r l; cbn [process_files].
  - intros [= _ <- _]. apply evolves_refl.
  - destruct (process_entry w q name es) as [[r1 es1] l1] eqn:Hentry.
    apply process_entry_evolves in Hentry.
    destruct r1 as [[] | e].
    + destruct (process_files w q rest es1) as [[r2 es2] l2] eqn:Hrest.
      apply IH in Hrest. intros [= _ <- _]. now apply (evolves_trans _ es1).
    + now intros [= _ <- _].
Qed.

Lemma organize_files_evolves (p : path) (w : bool) (q : Z) (snapshot es es' : entries)
    (l : log) :
  organize_files p w q snapshot es = (es', l) -> evolves es es'.
Proof.
  unfold organize_files. destruct (classify snapshot) as [c todo].
  destruct (Nat.eqb (total c) 0).
  - intros [= <- _]. apply evolves_refl.
  - destruct (process_files w q todo es) as [[r es2] l2] eqn:Hloop.
    apply process_files_evolves in Hloop.
    destruct r as [[] | e]; now intros [= <- _].
Qed.

(** One file handled without a failure line is no longer a file of the
    directory, and no new target file appeared. *)
Lemma process_entry_clears (w : bool) (q : Z) (name : string) (rest : list string)
    (es es' : entries) (l : log) :
  process_entry w q name es = (Ok tt, es', l) ->
  failure_free l = true ->
  targets_within (name :: rest) es -> targets_within rest es'.
Proof.
  intros Hrun Hff Hin x d Hx Ht.
  destruct (is_target name) eqn:Hname.
  - destruct (process_entry_success _ _ _ _ _ _ Hrun Hff Hname)
      as (es0 & es1 & r' & w' & sub & y & H0 & H1 & _ & _ & _ & ->).
    apply in_update_entry in Hx as [Hx | Hx]; [| discriminate Hx].
    apply in_remove_entry in Hx as [Hx Hne]. cbn [fst] in Hne.
    assert (Hx0 : In (x, File d) es0).
    { destruct H1 as [-> | [_ ->]]; [exact Hx |].
      apply in_app_or in Hx as [Hx | [Hx | []]]; [exact Hx | discriminate Hx]. }
    assert (Hxe : In (x, File d) es).
    { destruct H0 as [-> | [j ->]]; [exact Hx0 |].
      apply in_app_or in Hx0 as [Hx0 | [Hx0 | []]]; [exact Hx0 |].
      injection Hx0 as <- _. unfold jpg_of in Ht. rewrite jpg_not_target in Ht.
      discriminate Ht. }
    destruct (Hin x d Hxe Ht) as [<- | Hrest]; [contradiction | exact Hrest].
  - rewrite (process_entry_other _ _ _ _ Hname) in Hrun. injection Hrun as <- _.
    destruct (Hin x d Hx Ht) as [<- | Hrest]; [congruence | exact Hrest].
Qed.

Lemma process_files_clears (w : bool) (q : Z) (todo : list string) :
  forall (es es' : entries) (l : log),
  process_files w q todo es = (Ok tt, es', l) ->
  failure_free l = true ->
  targets_within todo es -> targets_within [] es'.
Proof.
  induction todo as [|name rest IH]; intros es es' l Hrun Hff Hin.
  - now injection Hrun as <- _.
  - apply process_files_cons in Hrun as (es1 & l1 & l2 & Hentry & Hrest & ->).
    rewrite failure_free_app in Hff. apply andb_true_iff in Hff as [Hff1 Hff2].
    apply (IH _ _ _ Hrest Hff2).
    now apply (process_entry_clears w q name rest es es1 l1).
Qed.

Lemma classify_todo (es : entries) : targets_within (snd (classify es)) es.
Proof.
  induction es as [|[name y] es IH]; intros x d Hx Ht; [destruct Hx |].
  cbn [classify]. destruct (classify es) as [c todo]. cbn [snd] in IH.
  destruct Hx as [[= -> ->] | Hx].
  - cbn [is_file]. unfold is_target in Ht.
    destruct (matches heic_exts x); [now left |].
    destruct (matches mov_exts x); [now left |].
    destruct (matches mp4_exts x); [now left | discriminate Ht].
  - specialize (IH x d Hx Ht).
    destruct (is_file y); [| exact IH].
    destruct (matches heic_exts name); [now right |].
    destruct (matches mov_exts name); [now right |].
    destruct (matches mp4_exts name); [now right | exact IH].
Qed.

Lemma classify_total (es : entries) :
  total (fst (classify es)) = length (snd (classify es)).
Proof.
  induction es as [|[name y] es IH]; [reflexivity |].
  cbn [classify]. destruct (classify es) as [c todo]. cbn [fst snd] in IH.
  unfold total in *.
  destruct (is_file y); [| exact IH].
  destruct (matches heic_exts name); [cbn; lia |].
  destruct (matches mov_exts name); [cbn; lia |].
  destruct (matches mp4_exts name); [cbn; lia | exact IH].
Qed.

Lemma classify_none (es : entries) :
  targets_within [] es ->
  classify es = ({| c_heic := 0; c_mov := 0; c_mp4 := 0 |}, []).
Proof.
  induction es as [|[name y] es IH]; intros Hin; [reflexivity |].
  cbn [classify]. rewrite IH.
  - destruct y as [d | r w sub | r sub]; [| reflexivity | reflexivity]. cbn [is_file].
    assert (Ht : is_target name = false).
    { destruct (is_target name) eqn:Ht; [| reflexivity].
      destruct (Hin name d (or_introl eq_refl) Ht). }
    unfold is_target in Ht.
    apply orb_false_iff in Ht as [Ht H4]. apply orb_false_iff in Ht as [Hh Hm].
    now rewrite Hh, Hm, H4.
  - intros x d Hx Ht. apply (Hin x d); [now right | exact Ht].
Qed.

End SecondRun.

Section Idempotence.
Context `{ImageCodec}.

Lemma process_directory_kind (p : path) (q : Z) (n : node) :
  is_file (fst (process_directory p q n)) = is_file n.
Proof.
  destruct n as [d | r w es | r es]; [reflexivity | |].
  - rewrite process_directory_dir.
    destruct (is_reserved (lower (basename p))); [reflexivity |].
    destruct (negb r); [reflexivity |].
    destruct (children p q es) as [es1 l1].
    now destruct (organize_files p w q es es1) as [es2 l2].
  - now rewrite process_directory_locked.
Qed.

(** The walk through the subdirectories leaves the files of the directory
    alone and adds none. *)
Lemma children_files (p : path) (q : Z) (es : entries) (x : string) (d : bytes) :
  In (x, File d) (fst (children p q es)) -> In (x, File d) es.
Proof.
  induction es as [|[name y] es IH]; [intros [] |].
  rewrite children_cons.
  destruct (is_dir y) eqn:Hdir.
  - pose proof (process_directory_kind (p ++ [name]) q y) as Hkind.
    destruct (process_directory (p ++ [name]) q y) as [y' l1].
    destruct (children p q es) as [es' l2]. cbn [fst] in *.
    intros [[= -> ->] | Hin]; [| right; now apply IH].
    unfold is_dir in Hdir. rewrite <- Hkind in Hdir. discriminate Hdir.
  - destruct (children p q es) as [es' l2]. cbn [fst] in *.
    intros [Heq | Hin]; [now left | right; now apply IH].
Qed.

Lemma harmless_stable (p : path) (q : Z) (e : string * node) :
  harmless e -> stable p q e.
Proof.
  destruct e as [name x]. intros [Hfile | Hres] Hdir; cbn [fst snd] in *.
  - unfold is_dir in Hdir. rewrite Hfile in Hdir. discriminate Hdir.
  - destruct x as [d | r w es | r es]; [discriminate Hdir | |].
    + exists []. split; [| reflexivity].
      now rewrite process_directory_dir, basename_snoc, (reserved_lower name Hres).
    + exists []. split; [| reflexivity].
      rewrite process_directory_locked, basename_snoc, (reserved_lower name Hres).
      reflexivity.
Qed.

Lemma children_stable (p : path) (q : Z) (es : entries) :
  (forall e, In e es -> stable p q e) ->
  exists l, children p q es = (es, l) /\ quiet l = true.
Proof.
  induction es as [|[name x] es IH]; intros Hst.
  - exists []. split; reflexivity.
  - destruct IH as (l2 & Hrest & Hq2); [intros e He; apply Hst; now right |].
    rewrite children_cons, Hrest.
    destruct (is_dir x) eqn:Hdir.
    + destruct (Hst (name, x) (or_introl eq_refl) Hdir) as (l1 & Hvisit & Hq1).
      cbn [fst snd] in Hvisit. rewrite Hvisit. exists (l1 ++ l2).
      split; [reflexivity |]. unfold quiet in *. now rewrite forallb_app, Hq1, Hq2.
    + exists l2. split; [reflexivity | exact Hq2].
Qed.

Lemma organize_files_clears (p : path) (w : bool) (q : Z) (snapshot es es' : entries)
    (l : log) :
  organize_files p w q snapshot es = (es', l) ->
  failure_free l = true ->
  (forall x d, In (x, File d) es -> In (x, File d) snapshot) ->
  targets_within [] es'.
Proof.
  unfold organize_files. intros Hrun Hff Hfiles.
  pose proof (classify_todo snapshot) as Htodo.
  pose proof (classify_total snapshot) as Htotal.
  destruct (classify snapshot) as [c todo]. cbn [fst snd] in *.
  assert (Hin : targets_within todo es).
  { intros x d Hx Ht. apply (Htodo x d); auto. }
  destruct (Nat.eqb (total c) 0) eqn:Hzero.
  - injection Hrun as <- _. apply Nat.eqb_eq in Hzero.
    destruct todo; [exact Hin | cbn in Htotal; lia].
  - destruct (process_files w q todo es) as [[[[] | e] es2] l2] eqn:Hloop;
      injection Hrun as <- <-;
      cbn [failure_free forallb is_failure negb andb] in Hff.
    + change (failure_free (l2 ++ verify p c es2) = true) in Hff.
      rewrite failure_free_app in Hff. apply andb_true_iff in Hff as [Hff _].
      now apply (process_files_clears w q todo es es2 l2).
    + change (failure_free (l2 ++ [handler p e]) = true) in Hff.
      rewrite failure_free_app in Hff. apply andb_true_iff in Hff as [_ Hff].
      cbn [failure_free forallb] in Hff. rewrite handler_is_failure in Hff.
      discriminate Hff.
Qed.

Lemma classify_targets (es : entries) :
  Forall (fun name => is_target name = true) (snd (classify es)).
Proof.
  induction es as [|[name y] es IH]; [constructor |].
  cbn [classify]. destruct (classify es) as [c todo]. cbn [snd] in IH.
  destruct (is_file y); [| exact IH]. unfold is_target.
  destruct (matches heic_exts name) eqn:Hh;
    [| destruct (matches mov_exts name) eqn:Hm;
       [| destruct (matches mp4_exts name) eqn:H4]];
    cbn [snd]; try exact IH; constructor; try exact IH;
    rewrite Hh; try rewrite Hm; try rewrite H4; reflexivity.
Qed.

(** In a directory that cannot be searched, a visit with a file to handle
    prints a failure line; one without prints nothing. *)
Lemma organize_locked_clean (p : path) (es : entries) :
  forallb (fun e => negb (is_failure e)) (organize_locked p es) = true ->
  organize_locked p es = [].
Proof.
  unfold organize_locked.
  pose proof (classify_targets es) as Htargets.
  pose proof (classify_total es) as Htotal.
  destruct (classify es) as [c todo]. cbn [fst snd] in *.
  destruct (Nat.eqb (total c) 0) eqn:Hzero; [reflexivity |].
  apply Nat.eqb_neq in Hzero.
  destruct todo as [|name rest]; [cbn in Htotal; lia |].
  apply Forall_cons in Htargets as [Hname _].
  cbn [locked_files]. unfold locked_entry. unfold is_target, matches in Hname.
  destruct (endswith_any (lower name) heic_exts).
  - destruct (locked_files rest) as [[[] | e] l2]; cbn; intros Hff; discriminate Hff.
  - destruct (endswith_any (lower name) mov_exts); [cbn; intros Hff; discriminate Hff |].
    destruct (endswith_any (lower name) mp4_exts); [cbn; intros Hff; discriminate Hff |].
    discriminate Hname.
Qed.

(** C3.  After a run in which every conversion and every move went through
    (no skip, error or permission line), a second run on the resulting tree
    returns that tree unchanged and prints scanning lines only: nothing is
    converted, moved or verified. *)
Theorem organize_idempotent (n : node) :
  forall (p : path) (q : Z) (n1 : node) (l1 : log),
  process_directory p q n = (n1, l1) ->
  failure_free l1 = true ->
  exists l2, process_directory p q n1 = (n1, l2) /\ quiet l2 = true.
Proof.
  induction n as [d | r w es IH | r es] using node_induction;
    intros p q n1 l1 Hrun Hff.
  - injection Hrun as <- <-. exists []. split; reflexivity.
  - rewrite process_directory_dir in Hrun.
    destruct (is_reserved (lower (basename p))) eqn:Hres.
    { injection Hrun as <- <-. exists []. split; [| reflexivity].
      now rewrite process_directory_dir, Hres. }
    destruct r; cbn [negb] in Hrun; [| injection Hrun as <- <-; discriminate Hff].
    pose proof (children_files p q es) as Hfiles.
    assert (Hst : failure_free (snd (children p q es)) = true ->
                  forall e, In e (fst (children p q es)) -> stable p q e).
    { clear Hrun Hfiles. induction es as [|[name x] es IHes]; [intros _ e [] |].
      apply Forall_cons in IH as [IHx IHrest]. specialize (IHes IHrest).
      rewrite children_cons.
      destruct (is_dir x) eqn:Hdir.
      - destruct (process_directory (p ++ [name]) q x) as [x' lx] eqn:Hvisit.
        destruct (children p q es) as [es' lrest]. cbn [fst snd] in *.
        rewrite failure_free_app. intros Hlog. apply andb_true_iff in Hlog as [Hlx Hlrest].
        intros e [<- | He]; [| now apply IHes].
        intros _. apply (IHx _ _ _ _ Hvisit Hlx).
      - destruct (children p q es) as [es' lrest]. cbn [fst snd] in *.
        intros Hlrest e [<- | He]; [| now apply IHes].
        intros Hd. cbn [snd] in Hd. congruence. }
    destruct (children p q es) as [es1 lc]. cbn [fst snd] in *.
    destruct (organize_files p w q es es1) as [es2 lv] eqn:Horg.
    injection Hrun as <- <-.
    cbn [failure_free forallb is_failure negb andb] in Hff.
    change (failure_free (lc ++ lv) = true) in Hff.
    rewrite failure_free_app in Hff. apply andb_true_iff in Hff as [Hlc Hlv].
    assert (Hst2 : forall e, In e es2 -> stable p q e).
    { intros e He. destruct (organize_files_evolves _ _ _ _ _ _ _ Horg e He) as [He1 | Hh].
      - now apply Hst.
      - now apply harmless_stable. }
    destruct (children_stable p q es2 Hst2) as (lc2 & Hchildren2 & Hq2).
    pose proof (organize_files_clears _ _ _ _ _ _ _ Horg Hlv Hfiles) as Hclear.
    exists (Scanning p :: lc2 ++ []).
    split.
    + rewrite process_directory_dir, Hres, Hchildren2. cbn [negb].
      unfold organize_files. now rewrite (classify_none es2 Hclear).
    + unfold quiet in *. cbn [forallb is_scanning andb].
      now rewrite forallb_app, Hq2.
  - rewrite process_directory_locked in Hrun. injection Hrun as <- <-.
    rewrite process_directory_locked. eexists. split; [reflexivity |].
    destruct (is_reserved (lower (basename p))); [reflexivity |].
    destruct (negb r); [discriminate Hff |].
    cbn [failure_free forallb is_failure negb andb] in Hff.
    now rewrite (organize_locked_clean p es Hff).
Qed.

End Idempotence.

(** ** heic_to_jpg.py *)

Section ConvertOne.
Context `{ImageCodec}.

(** C10.  A missing input, an input that is not named [.heic]/[.heif], or a
    [.jpg] already at the output path: [convert_heic_to_jpg] prints its one
    line and returns with the file system exactly as it was. *)
Theorem convert_guards_write_nothing (fs : gmap string HeicToJpg.entry)
    (input_path : string) (quality : Z) :
  fs !! input_path = None \/
  endswith_any (lower input_path) [".heic"; ".heif"] = false \/
  fs !! jpg_of input_path <> None ->
  fst (HeicToJpg.convert_heic_to_jpg fs input_path quality) = fs /\
  (HeicToJpg.convert_heic_to_jpg fs input_path quality
     = (fs, [HeicToJpg.NotFound input_path]) \/
   HeicToJpg.convert_heic_to_jpg fs input_path quality
     = (fs, [HeicToJpg.NotHeic input_path]) \/
   HeicToJpg.convert_heic_to_jpg fs input_path quality
     = (fs, [HeicToJpg.AlreadyExists (jpg_of input_path)])).
Proof.
  unfold HeicToJpg.convert_heic_to_jpg, jpg_of. intros Hguard.
  destruct (fs !! input_path) as [x |] eqn:Hin; [| auto].
  destruct (endswith_any (lower input_path) [".heic"; ".heif"]) eqn:Hext; cbn [negb]; [| auto].
  destruct (fs !! (fst (splitext input_path) ++ ".jpg")%string) as [y |] eqn:Hout; [auto |].
  destruct Hguard as [Hg | [Hg | Hg]]; [discriminate Hg | discriminate Hg | contradiction].
Qed.

End ConvertOne.

(** ** The claims on concrete directories *)

(** C2.  [os.makedirs] is outside the [try] of [safe_move]: in a directory
    where nothing may be created, with no [mov/] folder yet, the exception
    leaves [safe_move]; it reaches the handler of [process_directory], and
    the visit ends before [c.mp4] is looked at. *)
Theorem safe_move_makedirs_raises :
  safe_move false "b.mov" "mov" [("b.mov", File [])]
    = (Raise PermissionError, [("b.mov", File [])], []) /\
  @process_directory copying_codec ["photos"] 95
      (Dir true false [("b.mov", File []); ("c.mp4", File [])])
    = (Dir true false [("b.mov", File []); ("c.mp4", File [])],
       [Scanning ["photos"]; Info 2 0 1 1; ErrorPermission ["photos"]]).
Proof. split; reflexivity. Qed.


(** C1, as the claim has it, fails: [a.heic] cannot be decoded, and although
    the move on its own would have gone through, the file is still in the
    directory afterwards, no [heic/] folder exists, and no line of the move
    step was printed. *)
Lemma failed_conversion_leaves_original :
  @convert failing_codec true 95 "a.heic" "a.jpg" [("a.heic", File [])]
    = Raise OtherError /\
  safe_move true "a.heic" "heic" [("a.heic", File [])]
    = (Ok true, [("heic", Dir true true [("a.heic", File [])])], []) /\
  @process_directory failing_codec ["photos"] 95 (Dir true true [("a.heic", File [])])
    = (Dir true true [("a.heic", File [])],
       [Scanning ["photos"]; Info 1 1 0 0;
        Convert "a.heic" "a"; ErrorConvert "a.heic";
        Verify; ResultMismatch 1 0 0 0 0 0]).
Proof. repeat split; reflexivity. Qed.

(** ** The theorems at work *)

Lemma failed_conversion_skips_file_witness :
  matches heic_exts "a.heic" = true /\
  path_exists "a.jpg" undecodable_album = false /\
  @convert failing_codec true 95 "a.heic" "a.jpg" undecodable_album = Raise OtherError /\
  @process_entry failing_codec true 95 "a.heic" undecodable_album
    = (Ok tt, undecodable_album, [Convert "a.heic" "a"; ErrorConvert "a.heic"]) /\
  @process_files failing_codec true 95 ["a.heic"; "b.mov"] undecodable_album
    = (Ok tt, [("a.heic", File []); ("mov", Dir true true [("b.mov", File [])])],
       [Convert "a.heic" "a"; ErrorConvert "a.heic"; Moved "b.mov" "mov"]).
Proof.
  split; [reflexivity |]. split; [reflexivity |]. split; [reflexivity |].
  split.
  - apply (@failed_conversion_skips_file failing_codec true 95 "a.heic" ["b.mov"]
             undecodable_album OtherError); reflexivity.
  - reflexivity.
Defined.

Lemma organize_idempotent_witness :
  failure_free (snd (@process_directory copying_codec ["photos"] 95 holiday)) = true /\
  exists l2,
    @process_directory copying_codec ["photos"] 95
        (fst (@process_directory copying_codec ["photos"] 95 holiday))
      = (fst (@process_directory copying_codec ["photos"] 95 holiday), l2) /\
    quiet l2 = true.
Proof.
  split; [reflexivity |].
  apply (@organize_idempotent copying_codec holiday ["photos"] 95
           (fst (@process_directory copying_codec ["photos"] 95 holiday))
           (snd (@process_directory copying_codec ["photos"] 95 holiday)));
    reflexivity.
Defined.

Lemma reserved_directory_untouched_witness :
  is_reserved (lower (basename ["photos"; "HEIC"])) = true /\
  @process_directory copying_codec ["photos"; "HEIC"] 95
      (Dir true true [("old.heic", File [])])
    = (Dir true true [("old.heic", File [])], []).
Proof.
  split; [reflexivity |].
  apply (@reserved_directory_untouched copying_codec). reflexivity.
Defined.


Lemma verification_accurate_witness :
  failure_free
    (snd (@organize_files copying_codec ["photos"] true 95 mixed_album
            (fst (@children copying_codec ["photos"] 95 mixed_album)))) = true /\
  count_files_in_folder "heic" heic_exts
    (fst (@organize_files copying_codec ["photos"] true 95 mixed_album
            (fst (@children copying_codec ["photos"] 95 mixed_album)))) = Ok 2%nat /\
  count_files_in_folder "mov" mov_exts
    (fst (@organize_files copying_codec ["photos"] true 95 mixed_album
            (fst (@children copying_codec ["photos"] 95 mixed_album)))) = Ok 1%nat /\
  count_files_in_folder "mp4" mp4_exts
    (fst (@organize_files copying_codec ["photos"] true 95 mixed_album
            (fst (@children copying_codec ["photos"] 95 mixed_album)))) = Ok 1%nat /\
  no_mismatch
    (snd (@organize_files copying_codec ["photos"] true 95 mixed_album
            (fst (@children copying_codec ["photos"] 95 mixed_album)))) = true.
Proof.
  split; [reflexivity |].
  pose proof (@verification_accurate copying_codec ["photos"] true 95 mixed_album
                (fst (@children copying_codec ["photos"] 95 mixed_album))
                (fst (@organize_files copying_codec ["photos"] true 95 mixed_album
                        (fst (@children copying_codec ["photos"] 95 mixed_album))))
                (snd (@children copying_codec ["photos"] 95 mixed_album))
                (snd (@organize_files copying_codec ["photos"] true 95 mixed_album
                        (fst (@children copying_codec ["photos"] 95 mixed_album))))
                eq_refl eq_refl eq_refl eq_refl eq_refl eq_refl eq_refl)
    as (_ & Hh & Hm & H4 & Hno & _).
  repeat split; assumption.
Defined.



Lemma convert_guards_write_nothing_witness :
  flat_album !! jpg_of "a.heic" <> None /\
  fst (@HeicToJpg.convert_heic_to_jpg copying_codec flat_album "a.heic" 95) = flat_album.
Proof.
  assert (Hout : flat_album !! jpg_of "a.heic" <> None) by (vm_compute; discriminate).
  split; [exact Hout |].
  apply (@convert_guards_write_nothing copying_codec flat_album "a.heic" 95).
  right. right. exact Hout.
Defined.

(** * Further properties *)

(** ** safe_move, case by case *)

Section SafeMoveMore.

Lemma lookup_entry_app_some (k : string) (y : node) (es es' : entries) :
  lookup_entry k es = Some y -> lookup_entry k (es ++ es') = Some y.
Proof. intros Hk. now rewrite lookup_entry_app, Hk. Qed.



Lemma with_folder_back (folder k : string) (es es1 : entries) :
  with_folder folder es es1 -> k <> folder -> lookup_entry k es = lookup_entry k es1.
Proof. intros Hwf Hne. symmetry. now apply (with_folder_lookup_ne folder). Qed.


(** X2.  When [safe_move] returns [True] it printed nothing, the source is
    no longer in the directory, and the node that was at the source is now
    at [dest_folder/basename(src)]. *)
Theorem safe_move_true_moves_the_node (w : bool) (src folder : string)
    (es es' : entries) (l : log) :
  safe_move w src folder es = (Ok true, es', l) ->
  src <> folder ->
  l = [] /\
  lookup_entry src es' = None /\
  lookup_entry src es <> None /\
  lookup_in folder src es' = lookup_entry src es.
Proof.
  intros Hrun Hne.
  apply safe_move_inv in Hrun
    as [(Hr & _)
       | [(es1 & _ & Hr & _)
         | [(es1 & r' & w' & sub & x & H1 & _ & -> & Hf & Hsrc & Hsub & ->)
           | (es1 & r' & sub & d & _ & Hr & _)]]];
    try discriminate Hr.
  assert (Hsrc0 : lookup_entry src es = Some x).
  { now rewrite (with_folder_back folder src es es1 H1 Hne). }
  split; [reflexivity |]. split.
  - rewrite lookup_update_ne by congruence. apply lookup_remove_eq.
  - split; [congruence |]. unfold lookup_in. rewrite lookup_update_eq.
    + now rewrite lookup_entry_app_new, Hsrc0.
    + rewrite lookup_remove_ne by exact Hne. congruence.
Qed.




(** X5.  [safe_move] prints a line exactly when it returns [False], and
    whenever it returns at all the destination folder exists afterwards. *)
Theorem safe_move_reports_false (w : bool) (src folder : string)
    (es es' : entries) (b : bool) (l : log) :
  safe_move w src folder es = (Ok b, es', l) ->
  src <> folder ->
  (b = false <-> l <> []) /\ path_exists folder es' = true.
Proof.
  intros Hrun Hne.
  pose proof Hrun as Hinv.
  apply safe_move_inv in Hinv
    as [(Hr & _)
       | [(es1 & H1 & Hr & -> & Hl)
         | [(es1 & r' & w' & sub & x & H1 & Hr & -> & Hf & _ & _ & ->)
           | (es1 & r' & sub & d & H1 & Hr & -> & _ & Hf & _ & _ & ->)]]];
    try discriminate Hr; injection Hr as ->.
  - split; [destruct Hl as [-> | ->]; split; congruence |].
    unfold path_exists.
    assert (Hsome : lookup_entry folder es1 <> None).
    { unfold safe_move, path_exists, makedirs in Hrun. cbv zeta in Hrun.
      destruct (lookup_entry folder es) eqn:Hfe.
      - destruct H1 as [-> | [Hnone _]]; congruence.
      - destruct w; [| discriminate Hrun].
        destruct (path_exists_in folder src (es ++ [(folder, Dir true true [])])).
        + injection Hrun as <- _. rewrite lookup_entry_app_new by exact Hfe. discriminate.
        + pose proof (lookup_entry_app_new folder (Dir true true []) es Hfe) as Hnew.
          unfold shutil_move in Hrun. rewrite Hnew in Hrun. cbn [andb] in Hrun.
          destruct (lookup_entry src (es ++ [(folder, Dir true true [])]));
            [discriminate Hrun |].
          injection Hrun as <- _. rewrite Hnew. discriminate. }
    now destruct (lookup_entry folder es1).
  - split; [split; congruence |].
    unfold path_exists. rewrite lookup_update_eq; [reflexivity |].
    rewrite lookup_remove_ne by exact Hne. congruence.
  - split; [split; congruence |].
    unfold path_exists. rewrite lookup_update_eq; [reflexivity | congruence].
Qed.

End SafeMoveMore.

(** ** What a visit keeps and what it creates *)

Section VisitKeeps.
Context `{ImageCodec}.

Lemma reserved_neq (k f : string) : is_reserved k = false -> is_reserved f = true -> k <> f.
Proof. intros Hk Hf ->. congruence. Qed.

(** An entry that is neither the file nor a reserved name is not touched by
    the handling of the file, except that it may be the new JPEG. *)
Lemma process_entry_lookup (w : bool) (q : Z) (name k : string) (es es' : entries)
    (r : result unit) (l : log) :
  process_entry w q name es = (r, es', l) ->
  k <> name -> is_reserved k = false ->
  lookup_entry k es' = lookup_entry k es \/
  (lookup_entry k es = None /\ k = jpg_of name /\ matches heic_exts name = true /\
   exists j, lookup_entry k es' = Some (File j)).
Proof.
  intros Hrun Hname Hres. unfold process_entry in Hrun. unfold matches, jpg_of.
  assert (Hmove : forall folder es0 r0 es2 l2,
             is_reserved folder = true ->
             move_to w name folder es0 = (r0, es2, l2) ->
             lookup_entry k es2 = lookup_entry k es0).
  { intros folder es0 r0 es2 l2 Hf Hm.
    apply (move_to_frame w name folder k es0 es2 r0 l2 Hm Hname).
    now apply reserved_neq. }
  destruct (endswith_any (lower name) heic_exts) eqn:Hh.
  - destruct (path_exists (fst (splitext name) ++ ".jpg") es) eqn:Hjpg; cbn [negb] in Hrun.
    + destruct (move_to w name "heic" es) as [[r0 es2] l2] eqn:Hm.
      injection Hrun as _ <- _. left. now apply (Hmove "heic" es r0 es2 l2).
    + destruct (convert w q name (fst (splitext name) ++ ".jpg") es) as [es0 | e] eqn:Hc.
      * apply convert_inv in Hc as [j ->].
        destruct (move_to w name "heic" (es ++ [((fst (splitext name) ++ ".jpg")%string, File j)]))
          as [[r0 es2] l2] eqn:Hm.
        injection Hrun as _ <- _.
        rewrite (Hmove "heic" _ r0 es2 l2 eq_refl Hm).
        destruct (String.eqb_spec (fst (splitext name) ++ ".jpg") k) as [Heq | Hneq].
        -- right. subst k. unfold path_exists in Hjpg.
           destruct (lookup_entry (fst (splitext name) ++ ".jpg") es) eqn:Hl; [discriminate |].
           repeat split; try reflexivity. exists j. now apply lookup_entry_app_new.
        -- left. now apply lookup_entry_app_ne.
      * injection Hrun as _ <- _. now left.
  - destruct (endswith_any (lower name) mov_exts).
    + left. now apply (Hmove "mov" es r es' l).
    + destruct (endswith_any (lower name) mp4_exts).
      * left. now apply (Hmove "mp4" es r es' l).
      * injection Hrun as _ <- _. now left.
Qed.

Lemma process_files_keep (w : bool) (q : Z) (k : string) (y : node) (todo : list string) :
  is_target k = false -> is_reserved k = false ->
  forall (es es' : entries) (r : result unit) (l : log),
  process_files w q todo es = (r, es', l) ->
  lookup_entry k es = Some y -> lookup_entry k es' = Some y.
Proof.
  intros Ht Hres. induction todo as [|name rest IH]; intros es es' r l; cbn [process_files].
  - now intros [= _ <- _].
  - destruct (process_entry w q name es) as [[r1 es1] l1] eqn:Hentry. intros Hrun Hk.
    assert (Hk1 : lookup_entry k es1 = Some y).
    { destruct (is_target name) eqn:Hname.
      - destruct (process_entry_lookup _ _ _ k _ _ _ _ Hentry) as [Hsame | (Hnone & _)];
          [congruence | exact Hres | congruence | congruence].
      - rewrite (process_entry_other _ _ _ _ Hname) in Hentry. now injection Hentry as _ <- _. }
    destruct r1 as [[] | e].
    + destruct (process_files w q rest es1) as [[r2 es2] l2] eqn:Hrest.
      injection Hrun as _ <- _. now apply (IH _ _ _ _ Hrest).
    + now injection Hrun as _ <- _.
Qed.

Lemma organize_files_keep (p : path) (w : bool) (q : Z) (snapshot es es' : entries)
    (l : log) (k : string) (y : node) :
  organize_files p w q snapshot es = (es', l) ->
  is_target k = false -> is_reserved k = false ->
  lookup_entry k es = Some y -> lookup_entry k es' = Some y.
Proof.
  unfold organize_files. destruct (classify snapshot) as [c todo].
  destruct (Nat.eqb (total c) 0); [now intros [= <- _] |].
  destruct (process_files w q todo es) as [[r es2] l2] eqn:Hloop.
  intros Hrun Ht Hres Hk.
  pose proof (process_files_keep w q k y todo Ht Hres _ _ _ _ Hloop Hk) as Hk2.
  destruct r as [[] | e]; now injection Hrun as <- _.
Qed.

Lemma children_keep_file (p : path) (q : Z) (k : string) (d : bytes) (es : entries) :
  lookup_entry k es = Some (File d) ->
  lookup_entry k (fst (children p q es)) = Some (File d).
Proof.
  induction es as [|[name x] es IH]; [discriminate |].
  rewrite children_cons. cbn [lookup_entry].
  destruct (String.eqb name k) eqn:Hname.
  - intros [= ->]. cbn [is_dir is_file negb].
    destruct (children p q es) as [es' l2]. cbn [fst lookup_entry]. now rewrite Hname.
  - intros Hk. specialize (IH Hk).
    destruct (if is_dir x then process_directory (p ++ [name]) q x else (x, [])) as [x' l1].
    destruct (children p q es) as [es' l2]. cbn [fst lookup_entry] in *. now rewrite Hname.
Qed.

(** X6.  A file of the directory that is not one of the targets and does not
    bear a reserved name (a [.jpg], a [.txt], ...) is at the same name with
    the same contents after [process_directory] visited the directory,
    whatever was converted, moved or failed in that visit. *)
Theorem other_files_stay (p : path) (q : Z) (r w : bool) (es : entries)
    (k : string) (d : bytes) :
  lookup_entry k es = Some (File d) ->
  is_target k = false ->
  is_reserved k = false ->
  exists es',
    fst (process_directory p q (Dir r w es)) = Dir r w es' /\
    lookup_entry k es' = Some (File d).
Proof.
  intros Hk Ht Hres. rewrite process_directory_dir.
  destruct (is_reserved (lower (basename p))); [now exists es |].
  destruct (negb r); [now exists es |].
  pose proof (children_keep_file p q k d es Hk) as Hk1.
  destruct (children p q es) as [es1 l1]. cbn [fst] in Hk1.
  destruct (organize_files p w q es es1) as [es2 l2] eqn:Horg.
  exists es2. split; [reflexivity |].
  now apply (organize_files_keep p w q es es1 es2 l2 k (File d)).
Qed.

End VisitKeeps.

Section VisitContent.
Context `{ImageCodec}.

(** The directory after [move_to], whichever way it went: as it was once
    the folder is there, or with the file added to the folder, and then
    either removed from the directory (the move) or still in it (the copy
    whose unlink raised). *)
Lemma move_to_inv (w : bool) (name folder : string) (es es' : entries)
    (r : result unit) (l : log) :
  move_to w name folder es = (r, es', l) ->
  exists es1,
    with_folder folder es es1 /\
    (es' = es1 \/
     exists r' w' sub x (stays : bool),
       lookup_entry folder es1 = Some (Dir r' w' sub) /\
       lookup_entry name es1 = Some x /\
       lookup_entry name sub = None /\
       es' = update_entry folder (Dir r' w' (sub ++ [(name, x)]))
               (if stays then es1 else remove_entry name es1)).
Proof.
  unfold move_to. destruct (safe_move w name folder es) as [[r0 es0] l0] eqn:Hsm.
  intros Hrun.
  assert (es' = es0) as -> by (destruct r0 as [[|] |]; congruence).
  apply safe_move_inv in Hsm
    as [(_ & -> & _)
       | [(es1 & H1 & _ & -> & _)
         | [(es1 & r' & w' & sub & x & H1 & _ & _ & Hf & Hn & Hs & ->)
           | (es1 & r' & sub & d & H1 & _ & _ & _ & Hf & Hn & Hs & ->)]]].
  - exists es. split; [now left | now left].
  - exists es1. split; [exact H1 | now left].
  - exists es1. split; [exact H1 |]. right. now exists r', w', sub, x, false.
  - exists es1. split; [exact H1 |]. right. now exists r', true, sub, (File d), true.
Qed.

Lemma lookup_stays_or_not (k n : string) (stays : bool) (es : entries) :
  k <> n ->
  lookup_entry k (if stays then es else remove_entry n es) = lookup_entry k es.
Proof. intros Hne. destruct stays; [reflexivity |]. apply lookup_remove_ne. congruence. Qed.

(** The directory after one target file was handled, whichever way it
    went. *)
Lemma process_entry_inv (w : bool) (q : Z) (name : string) (es es' : entries)
    (r : result unit) (l : log) :
  process_entry w q name es = (r, es', l) ->
  is_target name = true ->
  exists es0 es1,
    (es0 = es \/ exists j, es0 = es ++ [(jpg_of name, File j)]) /\
    with_folder (folder_of name) es0 es1 /\
    (es' = es1 \/
     exists r' w' sub x (stays : bool),
       lookup_entry (folder_of name) es1 = Some (Dir r' w' sub) /\
       lookup_entry name es1 = Some x /\
       lookup_entry name sub = None /\
       es' = update_entry (folder_of name) (Dir r' w' (sub ++ [(name, x)]))
               (if stays then es1 else remove_entry name es1)).
Proof.
  unfold process_entry, is_target, folder_of, matches, jpg_of.
  destruct (endswith_any (lower name) heic_exts) eqn:Hh.
  - intros Hrun _.
    destruct (negb (path_exists (fst (splitext name) ++ ".jpg") es)).
    + destruct (convert w q name (fst (splitext name) ++ ".jpg") es) as [es0 | e] eqn:Hc.
      * apply convert_inv in Hc as [j ->].
        destruct (move_to w name "heic" (es ++ [((fst (splitext name) ++ ".jpg")%string, File j)]))
          as [[r0 es2] l2] eqn:Hm.
        injection Hrun as _ <- _.
        destruct (move_to_inv _ _ _ _ _ _ _ Hm) as (es1 & H1 & Hshape).
        exists (es ++ [((fst (splitext name) ++ ".jpg")%string, File j)]), es1.
        split; [right; now exists j | now split].
      * injection Hrun as _ <- _. exists es, es.
        split; [now left |]. split; [now left | now left].
    + destruct (move_to w name "heic" es) as [[r0 es2] l2] eqn:Hm.
      injection Hrun as _ <- _.
      destruct (move_to_inv _ _ _ _ _ _ _ Hm) as (es1 & H1 & Hshape).
      exists es, es1. split; [now left | now split].
  - destruct (endswith_any (lower name) mov_exts) eqn:Hm.
    + intros Hrun _. destruct (move_to_inv _ _ _ _ _ _ _ Hrun) as (es1 & H1 & Hshape).
      exists es, es1. split; [now left | now split].
    + destruct (endswith_any (lower name) mp4_exts) eqn:H4; [| discriminate].
      intros Hrun _. destruct (move_to_inv _ _ _ _ _ _ _ Hrun) as (es1 & H1 & Hshape).
      exists es, es1. split; [now left | now split].
Qed.

Lemma kept_app (name : string) (d : bytes) (es extra : entries) :
  kept name d es -> kept name d (es ++ extra).
Proof.
  intros [Hk | (r & w & sub & Hf & Hk)].
  - left. now apply lookup_entry_app_some.
  - right. exists r, w, sub. split; [now apply lookup_entry_app_some | exact Hk].
Qed.

(** Handling a file never loses the contents of a target file. *)
Lemma process_entry_kept (w : bool) (q : Z) (n name : string) (d : bytes)
    (es es' : entries) (r : result unit) (l : log) :
  process_entry w q n es = (r, es', l) ->
  is_target name = true ->
  kept name d es -> kept name d es'.
Proof.
  intros Hrun Hname Hkept.
  destruct (is_target n) eqn:Hn.
  2: { rewrite (process_entry_other _ _ _ _ Hn) in Hrun. now injection Hrun as _ <- _. }
  destruct (process_entry_inv _ _ _ _ _ _ _ Hrun Hn) as (es0 & es1 & H0 & H1 & Hshape).
  assert (Hk0 : kept name d es0).
  { destruct H0 as [-> | [j ->]]; [exact Hkept | now apply kept_app]. }
  assert (Hk1 : kept name d es1).
  { destruct H1 as [-> | [_ ->]]; [exact Hk0 | now apply kept_app]. }
  destruct Hshape as [-> | (r' & w' & sub & x & stays & Hf & Hx & Hsub & ->)];
    [exact Hk1 |].
  pose proof (folder_of_reserved n) as Hfn.
  pose proof (folder_of_reserved name) as Hfname.
  assert (Hn_ne : n <> folder_of n) by now apply reserved_neq_target.
  assert (Hupd : lookup_entry (folder_of n)
                   (update_entry (folder_of n) (Dir r' w' (sub ++ [(n, x)]))
                      (if stays then es1 else remove_entry n es1))
                 = Some (Dir r' w' (sub ++ [(n, x)]))).
  { apply lookup_update_eq. rewrite lookup_stays_or_not by congruence. congruence. }
  destruct Hk1 as [Hk | (r0 & w0 & sub0 & Hf0 & Hk)].
  - destruct (String.eqb_spec n name) as [-> | Hne].
    + right. exists r', w', (sub ++ [(name, x)]). split; [exact Hupd |].
      rewrite lookup_entry_app_new by exact Hsub. congruence.
    + left. rewrite lookup_update_ne, lookup_stays_or_not; [exact Hk | congruence |].
      intros Heq. apply (reserved_neq_target (folder_of n) name Hfn Hname). now symmetry.
  - right. destruct (String.eqb_spec (folder_of n) (folder_of name)) as [Heq | Hne].
    + rewrite <- Heq in *. rewrite Hf in Hf0. injection Hf0 as -> -> ->.
      exists r0, w0, (sub0 ++ [(n, x)]). split; [exact Hupd |].
      now apply lookup_entry_app_some.
    + exists r0, w0, sub0. split; [| exact Hk].
      rewrite lookup_update_ne, lookup_stays_or_not; [exact Hf0 | | exact Hne].
      intros Heq. apply (reserved_neq_target (folder_of name) n Hfname Hn). now symmetry.
Qed.

Lemma process_files_kept (w : bool) (q : Z) (name : string) (d : bytes) (todo : list string) :
  is_target name = true ->
  forall (es es' : entries) (r : result unit) (l : log),
  process_files w q todo es = (r, es', l) ->
  kept name d es -> kept name d es'.
Proof.
  intros Hname. induction todo as [|n rest IH]; intros es es' r l; cbn [process_files].
  - now intros [= _ <- _].
  - destruct (process_entry w q n es) as [[r1 es1] l1] eqn:Hentry. intros Hrun Hk.
    pose proof (process_entry_kept _ _ _ _ _ _ _ _ _ Hentry Hname Hk) as Hk1.
    destruct r1 as [[] | e].
    + destruct (process_files w q rest es1) as [[r2 es2] l2] eqn:Hrest.
      injection Hrun as _ <- _. now apply (IH _ _ _ _ Hrest).
    + now injection Hrun as _ <- _.
Qed.

(** X7.  No visit loses a target file: after [process_directory] visited the
    directory, a HEIC, MOV or MP4 file that was in it is, with the same
    contents, still at its name or in the subfolder of its category (or, after
    a copy whose unlink raised, in both), whatever failed on the way. *)
Theorem target_files_are_kept (p : path) (q : Z) (r w : bool) (es : entries)
    (name : string) (d : bytes) :
  lookup_entry name es = Some (File d) ->
  is_target name = true ->
  exists es',
    fst (process_directory p q (Dir r w es)) = Dir r w es' /\
    kept name d es'.
Proof.
  intros Hk Ht. rewrite process_directory_dir.
  destruct (is_reserved (lower (basename p))); [exists es; split; [reflexivity | now left] |].
  destruct (negb r); [exists es; split; [reflexivity | now left] |].
  pose proof (children_keep_file p q name d es Hk) as Hk1.
  destruct (children p q es) as [es1 l1]. cbn [fst] in Hk1.
  unfold organize_files. destruct (classify es) as [c todo].
  destruct (Nat.eqb (total c) 0); [exists es1; split; [reflexivity | now left] |].
  destruct (process_files w q todo es1) as [[r2 es2] l2] eqn:Hloop.
  assert (Hkept : kept name d es2).
  { apply (process_files_kept w q name d todo Ht _ _ _ _ Hloop). now left. }
  exists es2. destruct r2 as [[] | e]; split; (reflexivity || exact Hkept).
Qed.

End VisitContent.

Section VisitCreates.
Context `{ImageCodec}.

(** A name that was free and is not reserved stays free when a file is
    handled, unless it is the JPEG written for that file. *)
Lemma process_entry_new (w : bool) (q : Z) (name k : string) (es es' : entries)
    (r : result unit) (l : log) :
  process_entry w q name es = (r, es', l) ->
  lookup_entry k es = None -> is_reserved k = false ->
  lookup_entry k es' = None \/
  (k = jpg_of name /\ matches heic_exts name = true /\
   exists j, lookup_entry k es' = Some (File j)).
Proof.
  intros Hrun Hnone Hres.
  destruct (String.eqb_spec k name) as [-> | Hne].
  - left. destruct (is_target name) eqn:Ht.
    + destruct (process_entry_inv _ _ _ _ _ _ _ Hrun Ht) as (es0 & es1 & H0 & H1 & Hshape).
      assert (Hn0 : lookup_entry name es0 = None).
      { destruct H0 as [-> | [j ->]]; [exact Hnone |].
        rewrite lookup_entry_app_ne; [exact Hnone |].
        intros Heq. unfold jpg_of in Heq. rewrite <- Heq, jpg_not_target in Ht.
        discriminate Ht. }
      assert (Hn1 : lookup_entry name es1 = None).
      { rewrite (with_folder_lookup_ne (folder_of name) name es0 es1 H1); [exact Hn0 |].
        apply reserved_neq_target; [apply folder_of_reserved | exact Ht]. }
      destruct Hshape as [-> | (r' & w' & sub & x & stays & _ & Hx & _)];
        [exact Hn1 | congruence].
    + rewrite (process_entry_other _ _ _ _ Ht) in Hrun. now injection Hrun as _ <- _.
  - destruct (process_entry_lookup _ _ _ k _ _ _ _ Hrun Hne Hres) as [Hsame | (_ & Hrest)].
    + left. congruence.
    + now right.
Qed.

Lemma process_files_new (w : bool) (q : Z) (k : string) (todo : list string) :
  is_reserved k = false ->
  forall (es es' : entries) (r : result unit) (l : log),
  process_files w q todo es = (r, es', l) ->
  lookup_entry k es = None ->
  lookup_entry k es' = None \/
  (exists name j, In name todo /\ matches heic_exts name = true /\ k = jpg_of name /\
                  lookup_entry k es' = Some (File j)).
Proof.
  intros Hres. induction todo as [|name rest IH]; intros es es' r l; cbn [process_files].
  - intros [= _ <- _] Hnone. now left.
  - destruct (process_entry w q name es) as [[r1 es1] l1] eqn:Hentry. intros Hrun Hnone.
    destruct (process_entry_new _ _ _ k _ _ _ _ Hentry Hnone Hres)
      as [Hnone1 | (-> & Hm & j & Hj)].
    + destruct r1 as [[] | e].
      * destruct (process_files w q rest es1) as [[r2 es2] l2] eqn:Hrest.
        injection Hrun as _ <- _.
        destruct (IH _ _ _ _ Hrest Hnone1) as [Hn | (n & j & Hin & Hm & Hk & Hj)];
          [now left | right].
        exists n, j. repeat split; auto. now right.
      * injection Hrun as _ <- _. now left.
    + right. exists name, j. split; [now left |]. split; [exact Hm |]. split; [reflexivity |].
      destruct r1 as [[] | e].
      * destruct (process_files w q rest es1) as [[r2 es2] l2] eqn:Hrest.
        injection Hrun as _ <- _.
        apply (process_files_keep w q (jpg_of name) (File j) rest
                 (jpg_not_target _) Hres _ _ _ _ Hrest Hj).
      * now injection Hrun as _ <- _.
Qed.

Lemma classify_in_snapshot (es : entries) (name : string) :
  In name (snd (classify es)) ->
  exists d, In (name, File d) es /\ is_target name = true.
Proof.
  induction es as [|[n x] es IH]; [intros [] |].
  cbn [classify]. destruct (classify es) as [c todo]. cbn [snd] in IH.
  assert (Hrest : In name todo -> exists d, In (name, File d) ((n, x) :: es) /\
                                           is_target name = true).
  { intros Hin. destruct (IH Hin) as (d & Hd & Ht). exists d. split; [now right | exact Ht]. }
  destruct x as [d | r w sub | r sub]; cbn [is_file]; [| exact Hrest | exact Hrest].
  unfold is_target.
  destruct (matches heic_exts n) eqn:Hh;
    [| destruct (matches mov_exts n) eqn:Hm; [| destruct (matches mp4_exts n) eqn:H4]];
    cbn [snd]; try exact Hrest;
    (intros [<- | Hin]; [| now apply Hrest]);
    exists d; (split; [now left |]); rewrite Hh; try rewrite Hm; try rewrite H4; reflexivity.
Qed.

(** X8.  The only names a visit of a directory brings into it are [heic],
    [mov], [mp4] and, as a regular file, the [.jpg] of a HEIC/HEIF file that
    was in the directory when it was listed. *)
Theorem visit_creates_only (p : path) (w : bool) (q : Z) (snapshot es es' : entries)
    (l : log) (k : string) :
  organize_files p w q snapshot es = (es', l) ->
  lookup_entry k es = None ->
  lookup_entry k es' <> None ->
  is_reserved k = true \/
  exists name d j,
    In (name, File d) snapshot /\ matches heic_exts name = true /\
    k = jpg_of name /\ lookup_entry k es' = Some (File j).
Proof.
  unfold organize_files. intros Hrun Hnone Hsome.
  destruct (is_reserved k) eqn:Hres; [now left | right].
  pose proof (classify_in_snapshot snapshot) as Hsnap.
  destruct (classify snapshot) as [c todo]. cbn [snd] in Hsnap.
  destruct (Nat.eqb (total c) 0); [injection Hrun as <- _; contradiction |].
  destruct (process_files w q todo es) as [[r es2] l2] eqn:Hloop.
  assert (es' = es2) as -> by (destruct r as [[] | e]; congruence).
  destruct (process_files_new w q k todo Hres _ _ _ _ Hloop Hnone)
    as [Hn | (name & j & Hin & Hm & -> & Hj)]; [contradiction |].
  destruct (Hsnap name Hin) as (d & Hd & _).
  now exists name, d, j.
Qed.

(** X9.  The scenario of a first conversion: in a writable directory with
    no [heic] entry, a HEIC/HEIF file that decodes and has no [.jpg] yet gets
    its JPEG, with the bytes the codec produced at the requested quality,
    and is then moved to a new [heic/] folder; the two lines printed are the
    conversion and the move. *)
Theorem heic_converted_then_moved (q : Z) (name : string) (es : entries) (d j : bytes) :
  matches heic_exts name = true ->
  lookup_entry name es = Some (File d) ->
  lookup_entry (jpg_of name) es = None ->
  lookup_entry "heic" es = None ->
  encode_jpeg d q = Some j ->
  fst (fst (process_entry true q name es)) = Ok tt /\
  snd (process_entry true q name es)
    = [Convert name (fst (splitext name)); Moved name "heic"] /\
  lookup_entry (jpg_of name) (snd (fst (process_entry true q name es))) = Some (File j) /\
  lookup_entry name (snd (fst (process_entry true q name es))) = None /\
  lookup_entry "heic" (snd (fst (process_entry true q name es)))
    = Some (Dir true true [(name, File d)]).
Proof.
  intros Hm Hname Hjpg Hheic Henc.
  assert (Ht : is_target name = true) by (unfold is_target; now rewrite Hm).
  assert (Hne : name <> "heic") by (apply reserved_neq_target; [reflexivity | exact Ht]).
  assert (Hjn : jpg_of name <> name).
  { intros Heq. unfold jpg_of in Heq. rewrite <- Heq, jpg_not_target in Ht. discriminate. }
  assert (Hjh : jpg_of name <> "heic") by now apply reserved_neq_jpg.
  set (es0 := es ++ [(jpg_of name, File j)]).
  set (es1 := es0 ++ [("heic", Dir true true [])]).
  assert (Hconv : convert true q name (jpg_of name) es = Ok es0).
  { unfold convert. now rewrite Hname, Henc. }
  assert (Hn0 : lookup_entry name es0 = Some (File d)) by now apply lookup_entry_app_some.
  assert (Hh0 : lookup_entry "heic" es0 = None).
  { unfold es0. rewrite lookup_entry_app_ne; [exact Hheic | exact Hjh]. }
  assert (Hn1 : lookup_entry name es1 = Some (File d)) by now apply lookup_entry_app_some.
  assert (Hh1 : lookup_entry "heic" es1 = Some (Dir true true []))
    by now apply lookup_entry_app_new.
  assert (Hsm : safe_move true name "heic" es0
                = (Ok true,
                   update_entry "heic" (Dir true true ([] ++ [(name, File d)]))
                     (remove_entry name es1), [])).
  { unfold safe_move, path_exists, makedirs. cbv zeta. rewrite Hh0. fold es1.
    unfold path_exists_in, path_exists, shutil_move. now rewrite Hh1, Hn1. }
  assert (Hrun : process_entry true q name es
                 = (Ok tt,
                    update_entry "heic" (Dir true true ([] ++ [(name, File d)]))
                      (remove_entry name es1),
                    [Convert name (fst (splitext name)); Moved name "heic"])).
  { unfold process_entry, path_exists. unfold matches in Hm. rewrite Hm.
    fold (jpg_of name). rewrite Hjpg. cbn [negb]. rewrite Hconv.
    unfold move_to. now rewrite Hsm. }
  rewrite Hrun. cbn [fst snd app].
  repeat split.
  - rewrite lookup_update_ne, lookup_remove_ne by congruence.
    unfold es1. rewrite lookup_entry_app_ne by congruence.
    unfold es0. now apply lookup_entry_app_new.
  - rewrite lookup_update_ne by congruence. apply lookup_remove_eq.
  - apply lookup_update_eq. rewrite lookup_remove_ne by exact Hne. congruence.
Qed.

End VisitCreates.

(** ** Counting, in general *)

Section CountingMore.
Context `{ImageCodec}.

(** X10.  The files to process are the target files of the snapshot, in the
    order of the listing, directories left out; the three expected counts
    add up to their number. *)
Theorem classify_lists_target_files (es : entries) :
  snd (classify es) = target_files es /\
  total (fst (classify es)) = length (target_files es).
Proof.
  assert (Hlist : snd (classify es) = target_files es).
  { unfold target_files. induction es as [|[name x] es IH]; [reflexivity |].
    cbn [classify List.filter fst snd]. destruct (classify es) as [c todo].
    cbn [snd] in IH. unfold is_target.
    destruct (is_file x); cbn [andb]; [| exact IH].
    destruct (matches heic_exts name); [cbn; now rewrite IH |].
    destruct (matches mov_exts name); [cbn; now rewrite IH |].
    destruct (matches mp4_exts name); cbn; now rewrite IH. }
  split; [exact Hlist |]. now rewrite classify_total, Hlist.
Qed.

(** X11.  The three extension sets exclude each other: a target file matches
    the extensions of the subfolder it is sent to and of no other. *)
Theorem one_category_per_file (name f : string) :
  is_target name = true ->
  is_reserved f = true ->
  (matches (category_exts f) name = true <-> f = folder_of name).
Proof.
  intros Ht Hf. split.
  - intros Hm. unfold is_target in Ht. unfold folder_of.
    apply reserved_cases in Hf as [-> | [-> | ->]];
      change (matches heic_exts name = true) in Hm
      || change (matches mov_exts name = true) in Hm
      || change (matches mp4_exts name = true) in Hm.
    + now rewrite Hm.
    + destruct (matches heic_exts name) eqn:Hh.
      * rewrite (disjoint_matches heic_exts mov_exts name eq_refl Hh) in Hm. discriminate.
      * now rewrite Hm.
    + destruct (matches heic_exts name) eqn:Hh.
      * rewrite (disjoint_matches heic_exts mp4_exts name eq_refl Hh) in Hm. discriminate.
      * destruct (matches mov_exts name) eqn:Hv; [| reflexivity].
        rewrite (disjoint_matches mov_exts mp4_exts name eq_refl Hv) in Hm. discriminate.
  - intros ->. now apply target_matches_its_folder.
Qed.

(** X12.  The recount of a subfolder takes every entry with a matching
    name, directories included, while the count before the moves takes files
    only: in a folder that can be listed the recount is the number of
    matching files plus the number of matching directories, where the
    counting loop, run on the same entries, finds the number of matching
    files alone. *)
Theorem recount_takes_directories_too (folder : string) (exts : list string)
    (es sub : entries) (w : bool) :
  lookup_entry folder es = Some (Dir true w sub) ->
  count_files_in_folder folder exts es
    = Ok (files_matching exts sub + dirs_matching exts sub)%nat /\
  c_heic (fst (classify sub)) = files_matching heic_exts sub /\
  c_mov (fst (classify sub)) = files_matching mov_exts sub /\
  c_mp4 (fst (classify sub)) = files_matching mp4_exts sub.
Proof.
  intros Hf. split; [| exact (classify_counts sub)].
  unfold count_files_in_folder, files_matching, dirs_matching. rewrite Hf.
  f_equal. clear Hf.
  induction sub as [|[name x] sub IH]; [reflexivity |].
  cbn [List.filter fst snd]. unfold is_dir in *.
  destruct (matches exts name); destruct (is_file x);
    cbn [negb andb length]; rewrite IH; lia.
Qed.

(** X13.  When every conversion and move of a visit went through, each
    recount is what the subfolder held before plus the files sent to it; so
    the visit ends on the success line exactly when the three subfolders
    held no matching entry before, and on the mismatch line otherwise. *)
Theorem verdict_of_a_clean_visit (p : path) (w : bool) (q : Z)
    (snapshot es es' : entries) (l : log) (ah am a4 : nat) :
  process_files w q (snd (classify snapshot)) es = (Ok tt, es', l) ->
  failure_free l = true ->
  count_files_in_folder "heic" heic_exts es = Ok ah ->
  count_files_in_folder "mov" mov_exts es = Ok am ->
  count_files_in_folder "mp4" mp4_exts es = Ok a4 ->
  count_files_in_folder "heic" heic_exts es'
    = Ok (ah + c_heic (fst (classify snapshot)))%nat /\
  count_files_in_folder "mov" mov_exts es'
    = Ok (am + c_mov (fst (classify snapshot)))%nat /\
  count_files_in_folder "mp4" mp4_exts es'
    = Ok (a4 + c_mp4 (fst (classify snapshot)))%nat /\
  verify p (fst (classify snapshot)) es'
    = if (ah =? 0)%nat && (am =? 0)%nat && (a4 =? 0)%nat
      then [Verify; ResultSuccess (total (fst (classify snapshot)))]
      else [Verify;
            ResultMismatch
              (c_heic (fst (classify snapshot))) (ah + c_heic (fst (classify snapshot)))
              (c_mov (fst (classify snapshot))) (am + c_mov (fst (classify snapshot)))
              (c_mp4 (fst (classify snapshot))) (a4 + c_mp4 (fst (classify snapshot)))].
Proof.
  intros Hloop Hff Hh Hm H4.
  destruct (classify_bound snapshot) as (Bh & Bm & B4).
  pose proof (process_files_counts w q "heic" _ eq_refl _ _ _ _ Hloop Hff Hh) as Ch.
  pose proof (process_files_counts w q "mov" _ eq_refl _ _ _ _ Hloop Hff Hm) as Cm.
  pose proof (process_files_counts w q "mp4" _ eq_refl _ _ _ _ Hloop Hff H4) as C4.
  change (category_exts "heic") with heic_exts in Ch.
  change (category_exts "mov") with mov_exts in Cm.
  change (category_exts "mp4") with mp4_exts in C4.
  rewrite <- Bh in Ch. rewrite <- Bm in Cm. rewrite <- B4 in C4.
  repeat split; try assumption.
  unfold verify. rewrite Ch, Cm, C4.
  assert (Heqb : forall a c, ((a + c =? c) = (a =? 0))%nat).
  { intros a c. destruct (Nat.eqb_spec (a + c) c), (Nat.eqb_spec a 0); lia || reflexivity. }
  now rewrite !Heqb.
Qed.

End CountingMore.

(** ** A tree with nothing to organize *)

Section NothingToDo.
Context `{ImageCodec}.

Lemma no_target_entries (es : entries) :
  forallb (fun e : string * node =>
             let '(name, x) := e in
             negb (is_file x && is_target name) && has_no_target x) es = true ->
  targets_within [] es.
Proof.
  rewrite forallb_forall. intros Hall x d Hx Ht.
  specialize (Hall (x, File d) Hx). cbn [is_file] in Hall. rewrite Ht in Hall.
  discriminate Hall.
Qed.

(** X14.  A tree in which no file, at any depth, is a HEIC, MOV or MP4 file
    comes back from [process_directory] exactly as it was: no subfolder is
    created and nothing is moved. *)
Theorem tree_without_targets_unchanged (n : node) :
  forall (p : path) (q : Z),
  has_no_target n = true ->
  fst (process_directory p q n) = n.
Proof.
  induction n as [d | r w es IH | r es] using node_induction; intros p q Hno;
    [reflexivity | | now rewrite process_directory_locked].
  rewrite process_directory_dir.
  destruct (is_reserved (lower (basename p))); [reflexivity |].
  destruct (negb r); [reflexivity |].
  cbn [has_no_target] in Hno.
  pose proof (no_target_entries es Hno) as Hnone.
  assert (Hchildren : fst (children p q es) = es).
  { clear Hnone. induction es as [|[name x] es IHes]; [reflexivity |].
    apply Forall_cons in IH as [IHx IHrest].
    cbn [forallb] in Hno. apply andb_true_iff in Hno as [Hx Hrest].
    apply andb_true_iff in Hx as [_ Hx].
    specialize (IHes IHrest Hrest). rewrite children_cons.
    pose proof (IHx (p ++ [name]) q Hx) as Hvisit. cbn [snd] in Hvisit.
    destruct (process_directory (p ++ [name]) q x) as [x' lx]. cbn [fst] in Hvisit.
    destruct (children p q es) as [es' lrest]. cbn [fst] in IHes. subst.
    now destruct (is_dir x). }
  destruct (children p q es) as [es1 l1]. cbn [fst] in Hchildren. subst es1.
  unfold organize_files. now rewrite (classify_none es Hnone).
Qed.

End NothingToDo.

(** ** A directory that cannot be searched *)

Section Unsearchable.
Context `{ImageCodec}.

(** The loop in a directory that cannot be searched prints conversion lines
    only, and the one exception that leaves it is a [PermissionError]. *)
Lemma locked_files_lines (p : path) (todo : list string) :
  forallb (is_locked_line p) (snd (locked_files todo)) = true /\
  (forall e, fst (locked_files todo) = Raise e -> e = PermissionError).
Proof.
  induction todo as [|name rest [IHl IHr]]; [split; [reflexivity | discriminate] |].
  cbn [locked_files]. unfold locked_entry.
  destruct (endswith_any (lower name) heic_exts).
  - destruct (locked_files rest) as [r l2]. cbn [fst snd] in *.
    split; [exact IHl | exact IHr].
  - destruct (endswith_any (lower name) mov_exts);
      [split; [reflexivity | cbn; congruence] |].
    destruct (endswith_any (lower name) mp4_exts);
      [split; [reflexivity | cbn; congruence] |].
    destruct (locked_files rest) as [r l2]. cbn [fst snd] in *.
    split; [exact IHl | exact IHr].
Qed.

(** With nothing to recount, the verdict of a visit that had a file to
    handle is the mismatch. *)
Lemma verify_of_nothing (p : path) (c : counts) :
  total c <> 0%nat ->
  verify p c []
    = [Verify; ResultMismatch (c_heic c) 0 (c_mov c) 0 (c_mp4 c) 0].
Proof.
  intros Htotal. unfold verify. cbn [count_files_in_folder lookup_entry].
  destruct ((0 =? c_heic c)%nat && (0 =? c_mov c)%nat && (0 =? c_mp4 c)%nat) eqn:Hall;
    [| reflexivity].
  apply andb_true_iff in Hall as [Hall H4]. apply andb_true_iff in Hall as [Hh Hm].
  apply Nat.eqb_eq in Hh, Hm, H4. unfold total in Htotal. lia.
Qed.

(** X24.  A directory that can be reached but not searched comes back from
    [process_directory] exactly as it was, its subdirectories not entered:
    the visit prints its own scanning line, then at most the count, the
    conversion attempts and their failures, and either the permission line
    or the mismatch verdict; no file is moved or skipped and no success is
    reported. *)
Theorem unsearchable_directory_left_alone (p : path) (q : Z) (r : bool) (es : entries) :
  fst (process_directory p q (Locked r es)) = Locked r es /\
  forallb (is_locked_line p) (snd (process_directory p q (Locked r es))) = true.
Proof.
  cbn [process_directory].
  destruct (is_reserved (lower (basename p))); [split; reflexivity |].
  assert (Hp : bool_decide (p = p) = true) by now apply bool_decide_eq_true.
  destruct (negb r); cbn [fst snd forallb is_locked_line]; rewrite Hp;
    [split; reflexivity |].
  split; [reflexivity |]. cbn [andb]. unfold organize_locked.
  destruct (classify es) as [c todo].
  destruct (Nat.eqb (total c) 0) eqn:Hzero; [reflexivity |].
  apply Nat.eqb_neq in Hzero.
  destruct (locked_files_lines p todo) as [Hlines Hraise].
  destruct (locked_files todo) as [[[] | e] l]; cbn [fst snd] in *.
  - rewrite (verify_of_nothing p c Hzero). cbn [forallb is_locked_line andb].
    rewrite forallb_app, Hlines. reflexivity.
  - rewrite (Hraise e eq_refl). cbn [forallb is_locked_line andb handler].
    rewrite forallb_app, Hlines. cbn [forallb is_locked_line andb]. now rewrite Hp.
Qed.

End Unsearchable.

(** ** os.path.splitext and the name of the JPEG *)

Section Splitext.

Lemma substring_all (s : string) : String.substring 0 (String.length s) s = s.
Proof. induction s as [|c s IH]; cbn; [reflexivity | now rewrite IH]. Qed.

Lemma substring_cut (s : string) :
  forall n, (n <= String.length s)%nat ->
  (String.substring 0 n s ++ String.substring n (String.length s - n) s)%string = s.
Proof.
  induction s as [|c s IH]; intros n Hn.
  - cbn in Hn. assert (n = 0)%nat as -> by lia. reflexivity.
  - destruct n as [|n].
    + cbn [String.length Nat.sub]. change (String.substring 0 0 (String c s)) with "".
      rewrite append_nil_l. apply (substring_all (String c s)).
    + cbn [String.length] in *. cbn [Nat.sub String.substring].
      rewrite append_cons, IH by lia. reflexivity.
Qed.

Lemma rfind_from_range (c : ascii) (s : string) :
  forall i acc,
  rfind_from c s i acc = acc \/
  (i <= rfind_from c s i acc < i + Z.of_nat (String.length s))%Z.
Proof.
  induction s as [|d s IH]; intros i acc; cbn [rfind_from String.length]; [now left |].
  destruct (IH (i + 1)%Z (if Ascii.eqb d c then i else acc)) as [Heq | Hin].
  - rewrite Heq. destruct (Ascii.eqb d c); [right; lia | now left].
  - right. lia.
Qed.

(** [os.path.splitext] only cuts: the root and the extension it
    returns, put together again, are the path. *)
Theorem splitext_cuts (p : string) :
  (fst (splitext p) ++ snd (splitext p))%string = p.
Proof.
  assert (Hnil : forall s : string, (s ++ "")%string = s).
  { intros s. induction s as [|c s IH]; [reflexivity | now rewrite append_cons, IH]. }
  unfold splitext.
  destruct (rfind "/" p <? rfind "." p)%Z eqn:Hlt; cbn [fst snd]; [| apply Hnil].
  destruct (all_chars "." (slice p (rfind "/" p + 1) (rfind "." p))); cbn [fst snd];
    [apply Hnil |].
  apply Z.ltb_lt in Hlt.
  assert (Hdot : (0 <= rfind "." p < Z.of_nat (String.length p))%Z).
  { unfold rfind in *.
    destruct (rfind_from_range "." p 0 (-1)) as [Heq | Hin]; [| lia].
    destruct (rfind_from_range "/" p 0 (-1)) as [Heq' | Hin']; lia. }
  unfold slice. rewrite Z.sub_0_r. change (Z.to_nat 0) with 0%nat.
  replace (Z.to_nat (Z.of_nat (String.length p) - rfind "." p))
    with (String.length p - Z.to_nat (rfind "." p))%nat by lia.
  apply substring_cut. lia.
Qed.

Lemma lacks_rfind_from (c : ascii) (s : string) :
  lacks c s = true -> forall i acc, rfind_from c s i acc = acc.
Proof.
  induction s as [|d s IH]; intros Hl i acc; cbn [rfind_from]; [reflexivity |].
  cbn [lacks] in Hl. apply andb_true_iff in Hl as [Hd Hs].
  apply negb_true_iff in Hd. rewrite Hd. now apply IH.
Qed.

Lemma lacks_app (c : ascii) (a b : string) :
  lacks c (a ++ b) = lacks c a && lacks c b.
Proof.
  induction a as [|d a IH]; [reflexivity |].
  rewrite append_cons. cbn [lacks]. now rewrite IH, andb_assoc.
Qed.

Lemma rfind_from_last (c : ascii) (a e : string) :
  lacks c e = true ->
  forall i acc,
  rfind_from c (a ++ String c e) i acc = (i + Z.of_nat (String.length a))%Z.
Proof.
  intros He. induction a as [|d a IH]; intros i acc.
  - rewrite append_nil_l. cbn [rfind_from String.length]. rewrite Ascii.eqb_refl.
    rewrite (lacks_rfind_from c e He). cbn. lia.
  - rewrite append_cons. cbn [rfind_from String.length]. rewrite IH. lia.
Qed.

Lemma substring_app_left (a b : string) :
  String.substring 0 (String.length a) (a ++ b) = a.
Proof.
  induction a as [|c a IH].
  - destruct b; reflexivity.
  - rewrite append_cons. cbn [String.length String.substring]. now rewrite IH.
Qed.

Lemma substring_app_right (a b : string) :
  String.substring (String.length a) (String.length b) (a ++ b) = b.
Proof.
  induction a as [|c a IH].
  - rewrite append_nil_l. apply substring_all.
  - rewrite append_cons. cbn [String.length String.substring]. exact IH.
Qed.

(** X15.  For the name of a directory entry (no [/]) that is not made of
    dots only, followed by a dot and an extension without a dot,
    [os.path.splitext] returns that name and that extension; so the JPEG of
    [<root>.<ext>] is [<root>.jpg]. *)
Theorem splitext_of_root_and_ext (root ext : string) :
  lacks "/" root = true ->
  all_chars "." root = false ->
  lacks "." ext = true ->
  lacks "/" ext = true ->
  splitext (root ++ String "." ext) = (root, String "."%char ext) /\
  jpg_of (root ++ String "." ext) = (root ++ ".jpg")%string.
Proof.
  intros Hroot Hdots Hext Hsep.
  assert (Hsplit : splitext (root ++ String "." ext) = (root, String "."%char ext)).
  { unfold splitext, rfind.
    rewrite (rfind_from_last "." root ext Hext).
    rewrite (lacks_rfind_from "/" (root ++ String "." ext)).
    2: { rewrite lacks_app, Hroot. cbn [lacks andb]. exact Hsep. }
    assert ((-1 <? 0 + Z.of_nat (String.length root))%Z = true) as -> by (apply Z.ltb_lt; lia).
    unfold slice.
    replace (Z.to_nat (-1 + 1)) with 0%nat by lia.
    replace (Z.to_nat (0 + Z.of_nat (String.length root) - (-1 + 1)))
      with (String.length root) by lia.
    rewrite substring_app_left, Hdots.
    replace (Z.to_nat 0) with 0%nat by lia.
    replace (Z.to_nat (0 + Z.of_nat (String.length root) - 0))
      with (String.length root) by lia.
    rewrite substring_app_left.
    replace (Z.to_nat (0 + Z.of_nat (String.length root))) with (String.length root) by lia.
    replace (Z.to_nat (Z.of_nat (String.length (root ++ String "." ext))
                       - (0 + Z.of_nat (String.length root))))
      with (String.length (String "." ext)).
    2: { rewrite string_app_length. lia. }
    now rewrite substring_app_right. }
  split; [exact Hsplit |]. unfold jpg_of. now rewrite Hsplit.
Qed.

End Splitext.

(** ** convert_heic_to_jpg, case by case *)

Section ConvertMore.
Context `{ImageCodec}.

Lemma convert_result (fs : gmap string HeicToJpg.entry) (input_path : string) (q : Z) :
  fst (HeicToJpg.convert_heic_to_jpg fs input_path q) = fs \/
  (fs !! input_path <> None /\ fs !! jpg_of input_path = None /\
   endswith_any (lower input_path) [".heic"; ".heif"] = true /\
   exists j, fst (HeicToJpg.convert_heic_to_jpg fs input_path q)
             = <[jpg_of input_path := HeicToJpg.RegularFile j]> fs).
Proof.
  unfold HeicToJpg.convert_heic_to_jpg, jpg_of.
  destruct (fs !! input_path) as [x |] eqn:Hin; [| now left].
  destruct (endswith_any (lower input_path) [".heic"; ".heif"]) eqn:Hext;
    cbn [negb]; [| now left].
  destruct (fs !! (fst (splitext input_path) ++ ".jpg")%string) eqn:Hout; [now left |].
  destruct x as [data |]; [| now left].
  destruct (encode_jpeg data q) as [j |]; [| now left].
  right. repeat split; try congruence. now exists j.
Qed.

Lemma convert_keeps (fs : gmap string HeicToJpg.entry) (input_path : string) (q : Z) :
  fs ⊆ fst (HeicToJpg.convert_heic_to_jpg fs input_path q).
Proof.
  destruct (convert_result fs input_path q) as [-> | (_ & Hnone & _ & j & ->)];
    [reflexivity | now apply insert_subseteq].
Qed.

(** X16.  [convert_heic_to_jpg] never removes or changes what a path names:
    the file system it leaves contains the one it found, and the only path
    it can add is the [.jpg] next to the input. *)
Theorem convert_only_adds_the_jpg (fs : gmap string HeicToJpg.entry)
    (input_path : string) (q : Z) :
  fs ⊆ fst (HeicToJpg.convert_heic_to_jpg fs input_path q) /\
  dom (fst (HeicToJpg.convert_heic_to_jpg fs input_path q))
    ⊆ dom fs ∪ {[ jpg_of input_path ]}.
Proof.
  split; [apply convert_keeps |].
  destruct (convert_result fs input_path q) as [-> | (_ & Hnone & _ & j & ->)].
  - apply union_subseteq_l.
  - rewrite dom_insert_L.
    apply union_least; [apply union_subseteq_r | apply union_subseteq_l].
Qed.

(** X17.  Converting the same path a second time changes nothing more: the
    second call finds the [.jpg] of the first, or fails as the first did. *)
Theorem convert_twice (fs : gmap string HeicToJpg.entry) (input_path : string) (q : Z) :
  fst (HeicToJpg.convert_heic_to_jpg
         (fst (HeicToJpg.convert_heic_to_jpg fs input_path q)) input_path q)
  = fst (HeicToJpg.convert_heic_to_jpg fs input_path q).
Proof.
  destruct (convert_result fs input_path q) as [Heq | (Hin & Hnone & Hext & j & Heq)].
  - rewrite Heq. exact Heq.
  - rewrite Heq.
    destruct (convert_result (<[jpg_of input_path := HeicToJpg.RegularFile j]> fs)
                input_path q) as [Hsame | (_ & Hfree & _)];
      [exact Hsame |].
    rewrite lookup_insert_eq in Hfree. discriminate Hfree.
Qed.


(** X19.  The JPEG a conversion writes is never itself a file to convert or
    to move, and never bears the name of a subfolder: neither script takes
    its own output as input. *)
Theorem jpeg_is_never_a_target (name : string) :
  is_target (jpg_of name) = false /\
  endswith_any (lower (jpg_of name)) [".heic"; ".heif"] = false /\
  is_reserved (jpg_of name) = false.
Proof.
  unfold jpg_of. split; [apply jpg_not_target |]. split; [| apply jpg_not_reserved].
  apply (jpg_not_match heic_exts). reflexivity.
Qed.

End ConvertMore.

(** ** The command lines *)

Section MainBlocks.
Context `{ImageCodec} `{PyRuntime}.

(** X20.  Both scripts hand their core a quality between 1 and 100, the
    same in both: the third argument when [int] reads it and it is in range
    (no warning then), and 95 with the out-of-range warning, 95 with the
    invalid-value warning, or 95 without a warning when the argument is out
    of range, is not a number, or is missing. *)
Theorem quality_is_in_range (argv : list string) :
  (1 <= fst (OrganizeMain.jpg_quality argv) <= 100)%Z /\
  (1 <= fst (HeicMain.jpg_quality argv) <= 100)%Z /\
  fst (HeicMain.jpg_quality argv) = fst (OrganizeMain.jpg_quality argv) /\
  (snd (OrganizeMain.jpg_quality argv) = [] \/ fst (OrganizeMain.jpg_quality argv) = 95%Z) /\
  (snd (HeicMain.jpg_quality argv) = [] \/ fst (HeicMain.jpg_quality argv) = 95%Z) /\
  (forall arg val,
     nth_error argv 2 = Some arg -> py_int arg = Some val -> (1 <= val <= 100)%Z ->
     OrganizeMain.jpg_quality argv = (val, []) /\
     HeicMain.jpg_quality argv = (val, [])) /\
  (forall arg val,
     nth_error argv 2 = Some arg -> py_int arg = Some val -> (val < 1 \/ 100 < val)%Z ->
     OrganizeMain.jpg_quality argv = (95%Z, [OrganizeMain.QualityOutOfRange val]) /\
     HeicMain.jpg_quality argv = (95%Z, [HeicMain.QualityOutOfRange])) /\
  (forall arg,
     nth_error argv 2 = Some arg -> py_int arg = None ->
     OrganizeMain.jpg_quality argv = (95%Z, [OrganizeMain.InvalidQuality]) /\
     HeicMain.jpg_quality argv = (95%Z, [HeicMain.InvalidQuality])) /\
  (nth_error argv 2 = None ->
   OrganizeMain.jpg_quality argv = (95%Z, []) /\ HeicMain.jpg_quality argv = (95%Z, [])).
Proof.
  assert (Hread : forall arg,
            nth_error argv 2 = Some arg ->
            OrganizeMain.jpg_quality argv
            = match py_int arg with
              | Some val =>
                  if (1 <=? val)%Z && (val <=? 100)%Z then (val, [])
                  else (95%Z, [OrganizeMain.QualityOutOfRange val])
              | None => (95%Z, [OrganizeMain.InvalidQuality])
              end /\
            HeicMain.jpg_quality argv
            = match py_int arg with
              | Some val =>
                  if negb ((1 <=? val)%Z && (val <=? 100)%Z)
                  then (95%Z, [HeicMain.QualityOutOfRange])
                  else (val, [])
              | None => (95%Z, [HeicMain.InvalidQuality])
              end).
  { intros arg Harg. destruct argv as [|a0 [|a1 [|a2 rest]]]; try discriminate Harg.
    injection Harg as ->. split; reflexivity. }
  assert (Hmissing : nth_error argv 2 = None ->
            OrganizeMain.jpg_quality argv = (95%Z, []) /\
            HeicMain.jpg_quality argv = (95%Z, [])).
  { intros Harg. destruct argv as [|a0 [|a1 [|a2 rest]]]; try discriminate Harg;
      split; reflexivity. }
  assert (Hin : forall val, (1 <= val <= 100)%Z ->
                            ((1 <=? val)%Z && (val <=? 100)%Z) = true).
  { intros val Hval. apply andb_true_iff. split; apply Z.leb_le; lia. }
  assert (Hout : forall val, (val < 1 \/ 100 < val)%Z ->
                             ((1 <=? val)%Z && (val <=? 100)%Z) = false).
  { intros val Hval. apply andb_false_iff.
    destruct Hval; [left | right]; apply Z.leb_gt; lia. }
  assert (Hbounds :
    (1 <= fst (OrganizeMain.jpg_quality argv) <= 100)%Z /\
    (1 <= fst (HeicMain.jpg_quality argv) <= 100)%Z /\
    fst (HeicMain.jpg_quality argv) = fst (OrganizeMain.jpg_quality argv) /\
    (snd (OrganizeMain.jpg_quality argv) = [] \/
     fst (OrganizeMain.jpg_quality argv) = 95%Z) /\
    (snd (HeicMain.jpg_quality argv) = [] \/ fst (HeicMain.jpg_quality argv) = 95%Z)).
  { destruct (nth_error argv 2) as [arg |] eqn:Harg.
    - destruct (Hread arg eq_refl) as [-> ->].
      destruct (py_int arg) as [val |]; cbn [fst snd];
        [| solve [repeat split; first [lia | now right | reflexivity]]].
      destruct ((1 <=? val)%Z && (val <=? 100)%Z) eqn:Hrange; cbn [negb fst snd];
        [| solve [repeat split; first [lia | now right | reflexivity]]].
      apply andb_true_iff in Hrange as [Hlo Hhi]. apply Z.leb_le in Hlo, Hhi.
      repeat split; first [lia | now left | reflexivity].
    - destruct (Hmissing eq_refl) as [-> ->]. cbn [fst snd].
      repeat split; first [lia | now left | reflexivity]. }
  destruct Hbounds as (B1 & B2 & B3 & B4 & B5).
  split; [exact B1 |]. split; [exact B2 |]. split; [exact B3 |].
  split; [exact B4 |]. split; [exact B5 |].
  split; [| split; [| split]].
  - intros arg val Harg Hint Hval. destruct (Hread arg Harg) as [-> ->].
    now rewrite Hint, (Hin val Hval).
  - intros arg val Harg Hint Hval. destruct (Hread arg Harg) as [-> ->].
    now rewrite Hint, (Hout val Hval).
  - intros arg Harg Hint. destruct (Hread arg Harg) as [-> ->]. now rewrite Hint.
  - exact Hmissing.
Qed.

(** X21.  [organize_photos.py] starts the walk exactly when a path is given
    and exists: then it ends with status 0 on the tree [process_directory]
    returns for that path; otherwise it ends with status 1 before anything
    is touched. *)
Theorem organize_main_starts_or_exits (argv : list string)
    (disk : string -> option node) :
  (fst (fst (OrganizeMain.main argv disk)) = 1%Z /\
   snd (fst (OrganizeMain.main argv disk)) = None /\
   (nth_error argv 1 = None \/
    exists start_dir, nth_error argv 1 = Some start_dir /\ disk start_dir = None)) \/
  (exists start_dir n,
     nth_error argv 1 = Some start_dir /\ disk start_dir = Some n /\
     fst (fst (OrganizeMain.main argv disk)) = 0%Z /\
     snd (fst (OrganizeMain.main argv disk))
       = Some (fst (process_directory (normpath start_dir)
                      (fst (OrganizeMain.jpg_quality argv)) n))).
Proof.
  unfold OrganizeMain.main.
  destruct argv as [|a0 [|start_dir rest]]; cbn [nth_error]; [left; auto | left; auto |].
  destruct (OrganizeMain.jpg_quality (a0 :: start_dir :: rest)) as [quality warning].
  cbn [fst]. destruct (disk start_dir) as [n |] eqn:Hdisk.
  - right. exists start_dir, n.
    destruct (process_directory (normpath start_dir) quality n) as [n' l]. auto.
  - left. cbn [fst snd]. repeat split. right. now exists start_dir.
Qed.

(** X22.  [heic_to_jpg.py], whatever its arguments, leaves every existing
    path as it was; without a file argument it leaves the file system
    untouched and prints the two usage lines. *)
Theorem heic_main_keeps_files (argv : list string) (fs : gmap string HeicToJpg.entry) :
  fs ⊆ fst (HeicMain.main argv fs) /\
  (nth_error argv 1 <> None \/
   HeicMain.main argv fs = (fs, [HeicMain.Usage; HeicMain.UsageExample])).
Proof.
  unfold HeicMain.main.
  destruct argv as [|a0 [|file rest]]; cbn [nth_error]; [split; auto | split; auto |].
  destruct (HeicMain.jpg_quality (a0 :: file :: rest)) as [quality warning].
  pose proof (convert_keeps fs file quality) as Hsub.
  destruct (HeicToJpg.convert_heic_to_jpg fs file quality) as [fs' l].
  split; [exact Hsub | left; discriminate].
Qed.

End MainBlocks.

(** ** The further properties at work *)

Lemma safe_move_true_moves_the_node_witness :
  safe_move true "b.mov" "mov" single_mov
    = (Ok true, [("mov", Dir true true [("b.mov", File [])])], []) /\
  lookup_entry "b.mov" [("mov", Dir true true [("b.mov", File [])])] = None /\
  lookup_in "mov" "b.mov" [("mov", Dir true true [("b.mov", File [])])]
    = lookup_entry "b.mov" single_mov.
Proof.
  split; [reflexivity |].
  assert (Hne : "b.mov" <> "mov") by discriminate.
  destruct (safe_move_true_moves_the_node true "b.mov" "mov" single_mov
              [("mov", Dir true true [("b.mov", File [])])] [] eq_refl Hne)
    as (_ & Hgone & _ & Hthere).
  split; assumption.
Defined.




Lemma safe_move_reports_false_witness :
  safe_move true "a.heic" "heic" collision_album
    = (Ok false, collision_album, [SkipMove "a.heic" "heic"]) /\
  (false = false <-> [SkipMove "a.heic" "heic"] <> []) /\
  path_exists "heic" collision_album = true.
Proof.
  split; [reflexivity |].
  assert (Hne : "a.heic" <> "heic") by discriminate.
  exact (safe_move_reports_false true "a.heic" "heic" collision_album collision_album
           false [SkipMove "a.heic" "heic"] eq_refl Hne).
Defined.

Lemma other_files_stay_witness :
  lookup_entry "a.jpg" converted_album = Some (File [Byte.x4a]) /\
  is_target "a.jpg" = false /\
  is_reserved "a.jpg" = false /\
  exists es',
    fst (@process_directory copying_codec ["photos"] 95 (Dir true true converted_album))
      = Dir true true es' /\
    lookup_entry "a.jpg" es' = Some (File [Byte.x4a]).
Proof.
  split; [reflexivity |]. split; [reflexivity |]. split; [reflexivity |].
  exact (@other_files_stay copying_codec ["photos"] 95 true true converted_album
           "a.jpg" [Byte.x4a] eq_refl eq_refl eq_refl).
Defined.

Lemma target_files_are_kept_witness :
  lookup_entry "b.mov" readonly_album = Some (File []) /\
  is_target "b.mov" = true /\
  @process_directory copying_codec ["photos"] 95 (Dir true false readonly_album)
    = (Dir true false [("b.mov", File []); ("mov", Dir true true [("b.mov", File [])])],
       [Scanning ["photos"]; Info 1 0 1 0; ErrorMove "b.mov"; Verify; ResultSuccess 1]) /\
  exists es',
    fst (@process_directory copying_codec ["photos"] 95 (Dir true false readonly_album))
      = Dir true false es' /\
    kept "b.mov" [] es'.
Proof.
  split; [reflexivity |]. split; [reflexivity |]. split; [reflexivity |].
  exact (@target_files_are_kept copying_codec ["photos"] 95 true false readonly_album
           "b.mov" [] eq_refl eq_refl).
Defined.

Lemma visit_creates_only_witness :
  lookup_entry "a.jpg" undecodable_album = None /\
  lookup_entry "a.jpg"
    (fst (@organize_files copying_codec ["photos"] true 95
            undecodable_album undecodable_album)) <> None /\
  (is_reserved "a.jpg" = true \/
   exists name d j,
     In (name, File d) undecodable_album /\ matches heic_exts name = true /\
     "a.jpg" = jpg_of name /\
     lookup_entry "a.jpg"
       (fst (@organize_files copying_codec ["photos"] true 95
               undecodable_album undecodable_album)) = Some (File j)).
Proof.
  split; [reflexivity |].
  assert (Hsome : lookup_entry "a.jpg"
            (fst (@organize_files copying_codec ["photos"] true 95
                    undecodable_album undecodable_album)) <> None)
    by (vm_compute; discriminate).
  split; [exact Hsome |].
  exact (@visit_creates_only copying_codec ["photos"] true 95
           undecodable_album undecodable_album
           (fst (@organize_files copying_codec ["photos"] true 95
                   undecodable_album undecodable_album))
           (snd (@organize_files copying_codec ["photos"] true 95
                   undecodable_album undecodable_album))
           "a.jpg" eq_refl eq_refl Hsome).
Defined.

Lemma heic_converted_then_moved_witness :
  matches heic_exts "a.heic" = true /\
  lookup_entry "a.heic" undecodable_album = Some (File []) /\
  lookup_entry (jpg_of "a.heic") undecodable_album = None /\
  lookup_entry "heic" undecodable_album = None /\
  @encode_jpeg copying_codec [] 80 = Some [] /\
  snd (@process_entry copying_codec true 80 "a.heic" undecodable_album)
    = [Convert "a.heic" "a"; Moved "a.heic" "heic"] /\
  lookup_entry "heic"
    (snd (fst (@process_entry copying_codec true 80 "a.heic" undecodable_album)))
    = Some (Dir true true [("a.heic", File [])]).
Proof.
  do 5 (split; [reflexivity |]).
  destruct (@heic_converted_then_moved copying_codec 80 "a.heic" undecodable_album [] []
              eq_refl eq_refl eq_refl eq_refl eq_refl) as (_ & Hlog & _ & _ & Hheic).
  split; assumption.
Defined.

Lemma one_category_per_file_witness :
  is_target "clip.MPEG" = true /\
  is_reserved "mp4" = true /\
  (matches (category_exts "mp4") "clip.MPEG" = true <-> "mp4" = folder_of "clip.MPEG").
Proof.
  split; [reflexivity |]. split; [reflexivity |].
  exact (one_category_per_file "clip.MPEG" "mp4" eq_refl eq_refl).
Defined.

Lemma recount_takes_directories_too_witness :
  lookup_entry "heic" nested_heic_album
    = Some (Dir true true [("a.heic", File []); ("b.HEIC", Dir true true []);
                           ("notes.txt", File [])]) /\
  files_matching heic_exts [("a.heic", File []); ("b.HEIC", Dir true true []);
                            ("notes.txt", File [])] = 1%nat /\
  dirs_matching heic_exts [("a.heic", File []); ("b.HEIC", Dir true true []);
                           ("notes.txt", File [])] = 1%nat /\
  count_files_in_folder "heic" heic_exts nested_heic_album = Ok 2%nat /\
  c_heic (fst (classify [("a.heic", File []); ("b.HEIC", Dir true true []);
                         ("notes.txt", File [])])) = 1%nat.
Proof.
  split; [reflexivity |]. split; [reflexivity |]. split; [reflexivity |].
  destruct (recount_takes_directories_too "heic" heic_exts nested_heic_album
              [("a.heic", File []); ("b.HEIC", Dir true true []); ("notes.txt", File [])]
              true eq_refl) as (Hrecount & Hheic & _).
  split; [exact Hrecount | exact Hheic].
Defined.

Lemma verdict_of_a_clean_visit_witness :
  @process_files copying_codec true 95 (snd (classify refilled_album)) refilled_album
    = (Ok tt, [("mov", Dir true true [("old.mov", File []); ("b.mov", File [])])],
       [Moved "b.mov" "mov"]) /\
  count_files_in_folder "mov" mov_exts refilled_album = Ok 1%nat /\
  verify ["photos"] (fst (classify refilled_album))
      [("mov", Dir true true [("old.mov", File []); ("b.mov", File [])])]
    = [Verify; ResultMismatch 0 0 1 2 0 0].
Proof.
  split; [reflexivity |]. split; [reflexivity |].
  destruct (@verdict_of_a_clean_visit copying_codec ["photos"] true 95
              refilled_album refilled_album
              [("mov", Dir true true [("old.mov", File []); ("b.mov", File [])])]
              [Moved "b.mov" "mov"] 0%nat 1%nat 0%nat
              eq_refl eq_refl eq_refl eq_refl eq_refl) as (_ & _ & _ & Hverdict).
  exact Hverdict.
Defined.

Lemma quality_is_in_range_witness :
  nth_error ["organize_photos.py"; "photos"; "80"] 2 = Some "80" /\
  @py_int two_numerals "80" = Some 80%Z /\
  (1 <= 80 <= 100)%Z /\
  @OrganizeMain.jpg_quality two_numerals ["organize_photos.py"; "photos"; "80"]
    = (80%Z, []) /\
  @HeicMain.jpg_quality two_numerals ["organize_photos.py"; "photos"; "80"]
    = (80%Z, []).
Proof.
  split; [reflexivity |]. split; [reflexivity |]. split; [lia |].
  destruct (@quality_is_in_range two_numerals ["organize_photos.py"; "photos"; "80"])
    as (_ & _ & _ & _ & _ & Hin & _).
  exact (Hin "80" 80%Z eq_refl eq_refl ltac:(lia)).
Defined.

Lemma tree_without_targets_unchanged_witness :
  has_no_target plain_tree = true /\
  fst (@process_directory copying_codec ["photos"] 95 plain_tree) = plain_tree.
Proof.
  split; [reflexivity |].
  exact (@tree_without_targets_unchanged copying_codec plain_tree ["photos"] 95 eq_refl).
Defined.

Lemma splitext_of_root_and_ext_witness :
  lacks "/" "IMG_0001" = true /\
  all_chars "." "IMG_0001" = false /\
  lacks "." "HEIC" = true /\
  lacks "/" "HEIC" = true /\
  splitext "IMG_0001.HEIC" = ("IMG_0001", ".HEIC") /\
  jpg_of "IMG_0001.HEIC" = "IMG_0001.jpg".
Proof.
  do 4 (split; [reflexivity |]).
  exact (splitext_of_root_and_ext "IMG_0001" "HEIC" eq_refl eq_refl eq_refl eq_refl).
Defined.

